(** * TaskManager: the core of [src/core.py], embedded and verified

    The task file holds one task per line,
    [ID;Description;Labels;Status;Dependence].  [parse_tasks] turns the raw
    lines into 5-tuples and the operations [add], [modify], [rm],
    [add_options], [rmLabel], [clearLabel] and [rmDep] work on the parsed
    list.

    Modelling choices.
    - A Python [str] is a Rocq [string]; a character is a code point below
      256 (one [ascii]), and the classification of characters that the code
      relies on ([str.strip], [str.isdigit], [int], [str.lower]) is the one
      CPython has on that range.  Code points from 256 on are not modelled.
    - A Python [int] is a [Z].  The interpreter limits the number of digits
      of a conversion between [str] and [int] (4300 by default).  Writing
      an [int] beyond the limit raises [ValueError]: that is modelled where
      the code writes an [int] it has computed, in the line of [add] (the
      new id, and with it the dependence).  The limit on reading is not
      modelled: [int] reads a literal of any length.
    - [input] reads from a list of console events that is consumed from the
      left; an exhausted list is the end of the input ([EOFError]), and an
      event may be the user's interrupt ([KeyboardInterrupt]).
    - [print] has no effect on any returned value and is left out.
    - An exception is a value of [exn]; a function that can raise returns an
      [outcome]. *)

From Stdlib Require Import ZArith NArith Ascii String Decimal DecimalString DecimalN Lia.
From stdpp Require Import base tactics option list strings sorting.

Local Open Scope string_scope.
Local Open Scope Z_scope.

(** ** Python's strings *)

Module Py.

Definition str := string.

Definition ord (c : ascii) : N := N_of_ascii c.

(** [str.isspace] on one character: the characters [str.strip] removes.
    U+0009..U+000D, U+001C..U+0020, U+0085 and U+00A0. *)
Definition isspace (c : ascii) : bool :=
  let n := ord c in
  ((9 <=? n) && (n <=? 13) || (28 <=? n) && (n <=? 32)
   || (n =? 133) || (n =? 160))%N.

(** The white space [int] skips around a literal: the six of C's [isspace],
    and the two white-space characters above U+007F. *)
Definition int_space (c : ascii) : bool :=
  let n := ord c in
  ((9 <=? n) && (n <=? 13) || (n =? 32) || (n =? 133) || (n =? 160))%N.

(** The decimal digits [int] reads, as the digit they prepend. *)
Definition decimal (c : ascii) : option (uint -> uint) :=
  match c with
  | "0"%char => Some D0 | "1"%char => Some D1 | "2"%char => Some D2
  | "3"%char => Some D3 | "4"%char => Some D4 | "5"%char => Some D5
  | "6"%char => Some D6 | "7"%char => Some D7 | "8"%char => Some D8
  | "9"%char => Some D9
  | _ => None
  end.

(** [str.isdecimal] on one character *)
Definition isdecimal_char (c : ascii) : bool :=
  match decimal c with Some _ => true | None => false end.

(** [str.isdigit] on one character: the decimal digits, and the superscript
    digits U+00B2, U+00B3 and U+00B9, which are digits but not decimals. *)
Definition isdigit_char (c : ascii) : bool :=
  let n := ord c in
  ((48 <=? n) && (n <=? 57) || (n =? 178) || (n =? 179) || (n =? 185))%N.

(** [str.lower] on one character: A-Z, and U+00C0..U+00DE but U+00D7. *)
Definition lower_char (c : ascii) : ascii :=
  let n := ord c in
  if ((65 <=? n) && (n <=? 90)
      || (192 <=? n) && (n <=? 222) && negb (n =? 215))%N
  then ascii_of_N (n + 32) else c.

Fixpoint lower (s : str) : str :=
  match s with
  | EmptyString => EmptyString
  | String c s' => String (lower_char c) (lower s')
  end.

Definition nonempty (s : str) : bool :=
  match s with EmptyString => false | String _ _ => true end.

Fixpoint all_chars (p : ascii -> bool) (s : str) : bool :=
  match s with
  | EmptyString => true
  | String c s' => p c && all_chars p s'
  end.

(** [s.isdigit()]: at least one character, and all of them digits. *)
Definition isdigit (s : str) : bool := nonempty s && all_chars isdigit_char s.

Fixpoint lstrip_by (p : ascii -> bool) (s : str) : str :=
  match s with
  | EmptyString => EmptyString
  | String c s' => if p c then lstrip_by p s' else s
  end.

Fixpoint rstrip_by (p : ascii -> bool) (s : str) : str :=
  match s with
  | EmptyString => EmptyString
  | String c s' =>
      let r := rstrip_by p s' in
      if p c && negb (nonempty r) then EmptyString else String c r
  end.

(** [s.strip()] *)
Definition strip (s : str) : str := rstrip_by isspace (lstrip_by isspace s).

(** [s.split(sep)] for a one-character separator: never an empty list. *)
Fixpoint split (sep : ascii) (s : str) : list str :=
  match s with
  | EmptyString => [EmptyString]
  | String c s' =>
      if Ascii.eqb c sep then EmptyString :: split sep s'
      else match split sep s' with
           | [] => [String c EmptyString]
           | f :: fs => String c f :: fs
           end
  end.

(** [sep.join(l)] *)
Definition join (sep : str) (l : list str) : str := String.concat sep l.

(** [parts[i]], for an index the caller has checked against [len(parts)]. *)
Definition item (parts : list str) (i : nat) : str := nth i parts EmptyString.

(** [c in s] for one character *)
Fixpoint char_in (c : ascii) (s : str) : bool :=
  match s with
  | EmptyString => false
  | String x s' => Ascii.eqb x c || char_in c s'
  end.

(** [x in l] for strings *)
Definition str_in (x : str) (l : list str) : bool := existsb (String.eqb x) l.

(** Exceptions and results *)
Inductive exn : Type :=
| ValueError | UnboundLocalError | EOFError | KeyboardInterrupt.

Inductive outcome (A : Type) : Type :=
| Return (a : A)
| Raise (e : exn).
Arguments Return {A} a.
Arguments Raise {A} e.

Definition bind {A B} (m : outcome A) (k : A -> outcome B) : outcome B :=
  match m with Return a => k a | Raise e => Raise e end.

(** The digits of an integer literal: a decimal digit, then decimal digits
    each of which one underscore may precede. *)
Fixpoint digit_run (s : str) : option uint :=
  match s with
  | EmptyString => None
  | String c s' =>
      match decimal c with
      | None => None
      | Some d =>
          match s' with
          | EmptyString => Some (d Nil)
          | String "_"%char s'' => option_map d (digit_run s'')
          | _ => option_map d (digit_run s')
          end
      end
  end.

Definition magnitude (s : str) : option Z :=
  option_map (fun u => Z.of_N (N.of_uint u)) (digit_run s).

(** [int(s)] in base 10: white space around, an optional sign, the digits;
    anything else is a [ValueError]. *)
Definition int (s : str) : outcome Z :=
  let lit := rstrip_by int_space (lstrip_by int_space s) in
  let v := match lit with
           | String "-"%char ds => option_map Z.opp (magnitude ds)
           | String "+"%char ds => magnitude ds
           | _ => magnitude lit
           end in
  match v with
  | Some z => Return z
  | None => Raise ValueError
  end.

(** The characters [str(n)] is made of: decimal digits, the minus sign. *)
Definition in_int_str (c : ascii) : bool := isdecimal_char c || Ascii.eqb c "-".

(** [str(n)] for an integer *)
Definition str_of_int (n : Z) : str :=
  if n <? 0 then String "-"%char (NilEmpty.string_of_uint (N.to_uint (Z.to_N (- n))))
  else NilEmpty.string_of_uint (N.to_uint (Z.to_N n)).

(** [sys.int_info.default_max_str_digits] *)
Definition max_str_digits : nat := 4300.

(** The number of decimal digits of [n], without the sign. *)
Definition int_digits (n : Z) : nat :=
  String.length (NilEmpty.string_of_uint (N.to_uint (Z.abs_N n))).

(** [f"{n}"] for an integer, under the limit on the digits. *)
Definition format_int (n : Z) : outcome str :=
  if (max_str_digits <? int_digits n)%nat then Raise ValueError
  else Return (str_of_int n).

End Py.

Import Py.

Notation "'let*' x ':=' m 'in' k" := (bind m (fun x => k))
  (at level 10, x name, m at level 100, k at level 200).

(** ** The task file *)

(** A parsed task: the tuple [(id, description, labels, status, dependence)]. *)
Record task : Type := Task {
  tid : Z;
  description : str;
  labels : list str;
  status : str;
  dependence : option Z
}.

(** [[label.strip() for label in field.split(",") if label.strip()]] *)
Definition parse_labels (field : str) : list str :=
  List.filter nonempty (map strip (split "," field)).

(** The body of the [try] of [parse_tasks], on the fields of one line. *)
Definition parse_parts (parts : list str) : outcome task :=
  let* tid := int (item parts 0) in
  let description := item parts 1 in
  let labels :=
    if (3 <=? length parts)%nat && negb (item parts 2 =? "None")%string
    then parse_labels (item parts 2) else [] in
  let status :=
    if (4 <=? length parts)%nat && nonempty (strip (item parts 3))
    then strip (item parts 3) else "suspended" in
  let* dependence :=
    (if (5 <=? length parts)%nat && isdigit (strip (item parts 4))
     then let* d := int (strip (item parts 4)) in Return (Some d)
     else Return None) in
  Return (Task tid description labels status dependence).

(** One turn of the loop of [parse_tasks]: the task the line gives, or
    [None] when the line is skipped.  [int] raises nothing but [ValueError],
    which the [except] clause turns into [continue]. *)
Definition parse_line (line : str) : option task :=
  let line := strip line in
  if nonempty line then
    let parts := split ";" line in
    if (2 <=? length parts)%nat then
      match parse_parts parts with
      | Return t => Some t
      | Raise _ => None
      end
    else None
  else None.

Definition parse_tasks (tasks : list str) : list task :=
  fold_left (fun parsed_tasks line =>
               match parse_line line with
               | Some t => (parsed_tasks ++ [t])%list
               | None => parsed_tasks
               end) tasks [].

(** ** The console *)

Inductive console_event : Type :=
| Typed (answer : str)
| CtrlC.

(** [input(prompt)]: the next event, and the events left. *)
Definition input (console : list console_event) : outcome (str * list console_event) :=
  match console with
  | [] => Raise EOFError
  | Typed answer :: rest => Return (answer, rest)
  | CtrlC :: _ => Raise KeyboardInterrupt
  end.

(** The question loops of [add] and [add_options]: ask until the answer,
    in lower case, is one of o, n, oui, non; the result is that answer. *)
Fixpoint ask_yes_no (console : list console_event) : outcome (str * list console_event) :=
  match console with
  | [] => Raise EOFError
  | CtrlC :: _ => Raise KeyboardInterrupt
  | Typed answer :: rest =>
      if str_in (lower answer) ["o"; "n"; "oui"; "non"]
      then Return (lower answer, rest)
      else ask_yes_no rest
  end.

(** ** The operations *)

Definition valid_statuses : list str :=
  ["started"; "suspended"; "completed"; "cancelled"].

(** [",".join(labels_list) if labels_list else "None"] *)
Definition labels_str (labels_list : list str) : str :=
  match labels_list with
  | [] => "None"
  | _ => join "," labels_list
  end.

(** [f"{id_dep}"] for [id_dep: int | None] *)
Definition dep_str (id_dep : option Z) : str :=
  match id_dep with
  | None => "None"
  | Some d => str_of_int d
  end.

Definition newline : str := String "010"%char EmptyString.

(** The line [add] formats, when the integers are within the limit on the
    digits: [f"{new_id};{details};{labels_str};{status};{id_dep}\n"] *)
Definition task_line (new_id : Z) (details : str) (labels_list : list str)
    (status : str) (id_dep : option Z) : str :=
  str_of_int new_id ++ ";" ++ details ++ ";" ++ labels_str labels_list ++ ";"
  ++ status ++ ";" ++ dep_str id_dep ++ newline.

(** The same f-string as it is evaluated: [ValueError] when [new_id] or
    [id_dep] has more digits than the limit. *)
Definition format_task_line (new_id : Z) (details : str) (labels_list : list str)
    (status : str) (id_dep : option Z) : outcome str :=
  let* id_text := format_int new_id in
  let* dep_text :=
    match id_dep with
    | None => Return "None"
    | Some d => format_int d
    end in
  Return (id_text ++ ";" ++ details ++ ";" ++ labels_str labels_list ++ ";"
          ++ status ++ ";" ++ dep_text ++ newline).

(** [max(task[0] for task in parsed_tasks)], for a list that is not empty *)
Definition max_id (parsed_tasks : list task) : Z :=
  match parsed_tasks with
  | [] => 0
  | t :: rest => fold_left (fun m t' => Z.max m (tid t')) rest (tid t)
  end.

(** The first task with the given id: the loops that search by id stop at
    the first match. *)
Definition find_task (task_id : Z) (parsed_tasks : list task) : option (nat * task) :=
  list_find (fun t => tid t = task_id) parsed_tasks.

(** The loop [while True: id_dep = int(input("Laquelle ? ")) ...] of [add]:
    it ends on an id of the list, and lowers the status to suspended when
    the task of that id is not completed. *)
Fixpoint ask_dependence (parsed_tasks : list task) (status : str)
    (console : list console_event) : outcome (Z * str) :=
  match console with
  | [] => Raise EOFError
  | CtrlC :: _ => Raise KeyboardInterrupt
  | Typed answer :: rest =>
      match int answer with
      | Return id_dep =>
          if bool_decide (id_dep ∈ map tid parsed_tasks) then
            if (status =? "started")%string || (status =? "completed")%string then
              let parent_status :=
                match find_task id_dep parsed_tasks with
                | Some (_, Task _ _ _ pstate _) => pstate
                | None => "suspended"
                end in
              if negb (parent_status =? "completed")%string
              then Return (id_dep, "suspended")
              else Return (id_dep, status)
            else Return (id_dep, status)
          else ask_dependence parsed_tasks status rest
      | Raise _ => ask_dependence parsed_tasks status rest
      end
  end.

Notation "'let*' ' p ':=' m 'in' k" := (bind m (fun p => k))
  (at level 10, p pattern, m at level 100, k at level 200).

(** [add(tasks, details, labels, status)]: the tuple
    [(new_id, details, labels_list, new_task_line)], or [None] for the
    cancelled [(None, None, None, None)]. *)
Definition add (tasks : list str) (details : str) (labels : option (list str))
    (status : str) (console : list console_event)
    : outcome (option (Z * str * list str * str)) :=
  let parsed_tasks := parse_tasks tasks in
  let new_id :=
    match parsed_tasks with
    | [] => 1
    | _ => max_id parsed_tasks + 1
    end in
  let labels_list := match labels with None => [] | Some l => l end in
  let status := if negb (str_in status valid_statuses) then "suspended" else status in
  let asked : outcome (option Z * str) :=
    match parsed_tasks with
    | [] => Return (None, status)
    | _ =>
        let* '(dependence, console) := ask_yes_no console in
        if str_in dependence ["oui"; "o"] then
          let* '(id_dep, status) := ask_dependence parsed_tasks status console in
          Return (Some id_dep, status)
        else Return (None, status)
    end in
  match asked with
  | Raise KeyboardInterrupt => Return None
  | Raise e => Raise e
  | Return (id_dep, status) =>
      let* new_task_line :=
        format_task_line new_id details labels_list status id_dep in
      Return (Some (new_id, details, labels_list, new_task_line))
  end.

(** The [task_id] argument is a string or an integer. *)
Inductive id_arg : Type :=
| IdInt (n : Z)
| IdStr (s : str).

(** [int(task_id)] *)
Definition int_of (task_id : id_arg) : outcome Z :=
  match task_id with
  | IdInt n => Return n
  | IdStr s => int s
  end.

(** What the operations on one task return: [(found, tasks, old_task)]. *)
Definition result : Type := bool * list task * option task.

Definition modify (tasks : list str) (task_id : id_arg)
    (new_details new_status : option str) : outcome result :=
  match int_of task_id with
  | Raise _ => Return (false, [], None)
  | Return task_id =>
      let parsed_tasks := parse_tasks tasks in
      match find_task task_id parsed_tasks with
      | None => Return (false, parsed_tasks, None)
      | Some (i, Task tid desc lab state dep) =>
          let old_task := Task tid desc lab state dep in
          let state :=
            match new_status with
            | None => state
            | Some new_status =>
                match (new_status =? "started")%string, dep with
                | true, Some d =>
                    let '(parent_exists, parent_completed) :=
                      match find_task d parsed_tasks with
                      | Some (_, Task _ _ _ pstate _) =>
                          (true, (pstate =? "completed")%string)
                      | None => (false, false)
                      end in
                    if parent_exists && negb parent_completed then state
                    else new_status
                | _, _ =>
                    if str_in new_status valid_statuses then new_status
                    else state
                end
            end in
          let desc := match new_details with Some d => d | None => desc end in
          Return (true, <[i := Task tid desc lab state dep]> parsed_tasks,
                  Some old_task)
      end
  end.

(** The first loop of [rm]: the tasks of another id are kept in order, and
    [old_task] is assigned at each task of the id. *)
Fixpoint rm_filter (task_id : Z) (parsed_tasks filtered_tasks : list task)
    (old_task : option task) : list task * option task :=
  match parsed_tasks with
  | [] => (filtered_tasks, old_task)
  | t :: rest =>
      if bool_decide (tid t ≠ task_id)
      then rm_filter task_id rest (filtered_tasks ++ [t])%list old_task
      else rm_filter task_id rest filtered_tasks (Some t)
  end.

(** The second loop of [rm], which builds [final_tasks]. *)
Definition clear_dependence (task_id : Z) (t : task) : task :=
  let 'Task tid desc lab status dep := t in
  if bool_decide (dep = Some task_id) then Task tid desc lab status None
  else Task tid desc lab status dep.

Definition rm_final_tasks (task_id : Z) (found : bool) (filtered_tasks : list task)
    : list task :=
  if found then map (clear_dependence task_id) filtered_tasks else filtered_tasks.

Definition rm (tasks : list str) (task_id : id_arg) : outcome result :=
  match int_of task_id with
  | Raise _ => Return (false, parse_tasks tasks, None)
  | Return task_id =>
      let parsed_tasks := parse_tasks tasks in
      let original_length := length parsed_tasks in
      let '(filtered_tasks, old_task) := rm_filter task_id parsed_tasks [] None in
      let found := (length filtered_tasks <? original_length)%nat in
      let final_tasks := rm_final_tasks task_id found filtered_tasks in
      let old_task := if found then old_task else None in
      Return (found, filtered_tasks, old_task)
  end.

(** The label loop of [add_options]: a label is appended unless the list,
    as grown so far, has it. *)
Definition merge_labels (lab labels : list str) : list str :=
  fold_left (fun new_lab label =>
               if str_in label new_lab then new_lab
               else (new_lab ++ [label])%list) labels lab.

Definition add_options (tasks : list str) (task_id : id_arg)
    (labels : option (list str)) (id_dep : option Z)
    (console : list console_event) : outcome result :=
  match int_of task_id with
  | Raise _ => Return (false, [], None)
  | Return task_id =>
      let parsed_tasks := parse_tasks tasks in
      match find_task task_id parsed_tasks with
      | None => Return (false, parsed_tasks, None)
      | Some (i, Task tid desc lab state dep) =>
          let old_task := Task tid desc lab state dep in
          let new_lab :=
            match labels with
            | Some labels => merge_labels lab labels
            | None => lab
            end in
          let* dep :=
            match id_dep, dep with
            | Some id_dep, Some _ =>
                let* '(modify_dep, _) := ask_yes_no console in
                Return (if str_in modify_dep ["o"; "oui"] then Some id_dep else dep)
            | Some id_dep, None => Return (Some id_dep)
            | None, _ => Return dep
            end in
          Return (true, <[i := Task tid desc new_lab state dep]> parsed_tasks,
                  Some old_task)
      end
  end.

(** The loop of [rmLabel] that reads the index of the label: [None] when
    the user interrupts, which [rmLabel] catches. *)
Fixpoint ask_index (len : nat) (console : list console_event) : outcome (option nat) :=
  match console with
  | [] => Raise EOFError
  | CtrlC :: _ => Return None
  | Typed answer :: rest =>
      match int answer with
      | Return n =>
          if (0 <=? n) && (n <? Z.of_nat len) then Return (Some (Z.to_nat n))
          else ask_index len rest
      | Raise _ => ask_index len rest
      end
  end.

(** In [rmLabel], [clearLabel] and [rmDep] the variable [old_task] is
    assigned in the loop only: when no task has the id, the [return]
    statement reads an unbound local. *)
Definition rmLabel (tasks : list str) (task_id : id_arg)
    (console : list console_event) : outcome result :=
  match int_of task_id with
  | Raise _ => Return (false, [], None)
  | Return task_id =>
      let parsed_tasks := parse_tasks tasks in
      match find_task task_id parsed_tasks with
      | None => Raise UnboundLocalError
      | Some (i, Task tid desc lab status dep) =>
          let old_task := Task tid desc lab status dep in
          match lab with
          | [] => Return (true, parsed_tasks, Some old_task)
          | _ =>
              let* n := ask_index (length lab) console in
              match n with
              | None => Return (false, parsed_tasks, None)
              | Some n =>
                  Return (true,
                          <[i := Task tid desc (delete n lab) status dep]> parsed_tasks,
                          Some old_task)
              end
          end
      end
  end.

Definition clearLabel (tasks : list str) (task_id : id_arg) : outcome result :=
  match int_of task_id with
  | Raise _ => Return (false, [], None)
  | Return task_id =>
      let parsed_tasks := parse_tasks tasks in
      match find_task task_id parsed_tasks with
      | None => Raise UnboundLocalError
      | Some (i, Task tid desc lab status dep) =>
          let old_task := Task tid desc lab status dep in
          Return (true, <[i := Task tid desc [] status dep]> parsed_tasks,
                  Some old_task)
      end
  end.

Definition rmDep (tasks : list str) (task_id : id_arg) : outcome result :=
  match int_of task_id with
  | Raise _ => Return (false, [], None)
  | Return task_id =>
      let parsed_tasks := parse_tasks tasks in
      match find_task task_id parsed_tasks with
      | None => Raise UnboundLocalError
      | Some (i, Task tid desc lab state dep) =>
          let old_task := Task tid desc lab state dep in
          Return (true, <[i := Task tid desc lab state None]> parsed_tasks,
                  Some old_task)
      end
  end.

(** The five operations that change one task in place, with their
    arguments other than the lines and the id. *)
Inductive mutation : Type :=
| Modify (new_details new_status : option str)
| AddOptions (labels : option (list str)) (id_dep : option Z)
| RmLabel
| ClearLabel
| RmDep.

Definition run (op : mutation) (tasks : list str) (task_id : id_arg)
    (console : list console_event) : outcome result :=
  match op with
  | Modify new_details new_status => modify tasks task_id new_details new_status
  | AddOptions labels id_dep => add_options tasks task_id labels id_dep console
  | RmLabel => rmLabel tasks task_id console
  | ClearLabel => clearLabel tasks task_id
  | RmDep => rmDep tasks task_id
  end.

(** ** The table of [show] *)

(** [c * n] *)
Fixpoint repeat_char (c : ascii) (n : nat) : str :=
  match n with
  | O => EmptyString
  | S n' => String c (repeat_char c n')
  end.

(** [f"{s:<{width}}"]: [s], then spaces up to the width; nothing is cut. *)
Definition ljust (s : str) (width : nat) : str :=
  s ++ repeat_char " " (width - String.length s).

(** [sorted(parsed_tasks, key=lambda x: x[0])].  [sorted] is stable: tasks
    of equal ids stay in their order.  Inserting the tasks from the last
    to the first, each before the first task whose id is not smaller,
    gives that list. *)
Fixpoint insert_by_id (t : task) (sorted_tasks : list task) : list task :=
  match sorted_tasks with
  | [] => [t]
  | u :: rest =>
      if tid t <=? tid u then t :: u :: rest
      else u :: insert_by_id t rest
  end.

Definition sorted_by_id (parsed_tasks : list task) : list task :=
  foldr insert_by_id [] parsed_tasks.

(** [max(f(t) for t in sorted_tasks)], for lengths *)
Definition max_of (f : task -> nat) (sorted_tasks : list task) : nat :=
  foldr (fun t m => Nat.max (f t) m) 0%nat sorted_tasks.

(** [", ".join(labels) if labels else "None"] *)
Definition show_labels (labels : list str) : str :=
  match labels with
  | [] => "None"
  | _ => join ", " labels
  end.

(** [dep if dep else 'None']: [None] and the id 0 are both false. *)
Definition show_dep (dep : option Z) : str :=
  match dep with
  | Some d => if d =? 0 then "None" else str_of_int d
  | None => "None"
  end.

(** [len(str(dep)) if dep else 4] *)
Definition dep_width (dep : option Z) : nat :=
  match dep with
  | Some d => if d =? 0 then 4%nat else String.length (str_of_int d)
  | None => 4%nat
  end.

(** The two column titles that are not ASCII: U+00E9 is e with acute. *)
Definition etiquettes : str := String "233"%char "tiquette(s)".
Definition dependance : str := String "d"%char (String "233"%char "pendance").

Definition border_line (w_desc w_lab w_state w_dep : nat) : str :=
  "+-----+" ++ repeat_char "-" (w_desc + 2) ++ "+" ++ repeat_char "-" (w_lab + 2)
  ++ "+" ++ repeat_char "-" (w_state + 2) ++ "+" ++ repeat_char "-" (w_dep + 2)
  ++ "+".

Definition header_line (w_desc w_lab w_state w_dep : nat) : str :=
  "| " ++ ljust "id" 3 ++ " | " ++ ljust "description" w_desc ++ " | "
  ++ ljust etiquettes w_lab ++ " | " ++ ljust "statut" w_state ++ " | "
  ++ ljust dependance w_dep ++ " |".

Definition task_row (w_desc w_lab w_state w_dep : nat) (t : task) : str :=
  let 'Task task_id description labels state dep := t in
  "| " ++ ljust (str_of_int task_id) 3 ++ " | " ++ ljust description w_desc ++ " | "
  ++ ljust (show_labels labels) w_lab ++ " | " ++ ljust state w_state ++ " | "
  ++ ljust (show_dep dep) w_dep ++ " |".

(** [show(tasks)]: the lines it prints, in order. *)
Definition show (tasks : list str) : list str :=
  let parsed_tasks := parse_tasks tasks in
  match parsed_tasks with
  | [] => ["No tasks found."]
  | _ =>
      let sorted_tasks := sorted_by_id parsed_tasks in
      let max_desc_length :=
        Nat.max (max_of (fun t => String.length (description t)) sorted_tasks) 11 in
      let max_lab_length :=
        Nat.max (max_of (fun t => String.length (join ", " (labels t))) sorted_tasks) 12 in
      let max_state_length :=
        Nat.max (max_of (fun t => String.length (status t)) sorted_tasks) 6 in
      let max_dep_length :=
        Nat.max (max_of (fun t => dep_width (dependence t)) sorted_tasks) 10 in
      let border :=
        border_line max_desc_length max_lab_length max_state_length max_dep_length in
      ([border;
        header_line max_desc_length max_lab_length max_state_length max_dep_length;
        border]
       ++ map (task_row max_desc_length max_lab_length max_state_length max_dep_length)
            sorted_tasks
       ++ [border])%list
  end.

(** * Properties *)

(** ** The parser *)

Lemma parse_fold tasks acc :
  fold_left (fun parsed_tasks line =>
               match parse_line line with
               | Some t => (parsed_tasks ++ [t])%list
               | None => parsed_tasks
               end) tasks acc
  = (acc ++ omap parse_line tasks)%list.
Proof.
  revert acc. induction tasks as [|line tasks IH]; intros acc; simpl.
  - by rewrite app_nil_r.
  - rewrite IH. destruct (parse_line line); simpl; [|done].
    by rewrite <- app_assoc.
Qed.

(** [parse_tasks] keeps the order of the lines: it is [parse_line] mapped
    over them, the skipped lines left out. *)
Lemma parse_tasks_omap tasks : parse_tasks tasks = omap parse_line tasks.
Proof. unfold parse_tasks. by rewrite parse_fold. Qed.

(** X2.  Each line is parsed on its own: the tasks of two lists of lines
    put end to end are the tasks of the first, then those of the second. *)
Lemma parse_tasks_app tasks1 tasks2 :
  parse_tasks (tasks1 ++ tasks2) = (parse_tasks tasks1 ++ parse_tasks tasks2)%list.
Proof. rewrite !parse_tasks_omap. apply omap_app. Qed.

Lemma int_raises s e : int s = Raise e → e = ValueError.
Proof.
  unfold int.
  destruct (match rstrip_by int_space (lstrip_by int_space s) with
            | EmptyString => _ | String _ _ => _ end); congruence.
Qed.

(** The body of the [try] raises nothing but [ValueError]: the handler of
    [parse_tasks] catches whatever it raises. *)
Lemma parse_parts_raises parts e : parse_parts parts = Raise e → e = ValueError.
Proof.
  unfold parse_parts, bind.
  destruct (int (item parts 0)) as [n|e0] eqn:Hid;
    [|intros [= <-]; by eapply int_raises].
  destruct ((5 <=? length parts)%nat && isdigit (strip (item parts 4)));
    [|done].
  destruct (int (strip (item parts 4))) as [d|e1] eqn:Hdep; [done|].
  intros [= <-]. by eapply int_raises.
Qed.

Lemma split_nonempty sep s : split sep s ≠ [].
Proof.
  destruct s as [|c s]; simpl; [done|].
  destruct (Ascii.eqb c sep); [done|]. by destruct (split sep s).
Qed.

(** X1.  Exactly which lines [parse_tasks] skips: the blank ones, those with
    less than two fields, those whose first field [int] rejects, and those
    whose fifth field passes [isdigit] and is rejected by [int]. *)
Lemma parse_line_skipped line :
  let parts := split ";" (strip line) in
  parse_line line = None ↔
    nonempty (strip line) = false
    ∨ (length parts < 2)%nat
    ∨ int (item parts 0) = Raise ValueError
    ∨ ((5 ≤ length parts)%nat ∧ isdigit (strip (item parts 4)) = true
       ∧ int (strip (item parts 4)) = Raise ValueError).
Proof.
  intros parts. unfold parse_line. fold parts.
  destruct (nonempty (strip line)); [|by split; auto].
  destruct (Nat.leb_spec 2 (length parts)) as [Hlen|Hlen]; [|by split; auto].
  unfold parse_parts, bind.
  destruct (int (item parts 0)) as [n|e] eqn:Hid.
  - destruct (Nat.leb_spec 5 (length parts)) as [H5|H5]; cbn [andb].
    + destruct (isdigit (strip (item parts 4))) eqn:Hdig.
      * destruct (int (strip (item parts 4))) as [d|e] eqn:Hdep.
        -- split; [intros ?; discriminate|].
           intros [?|[?|[?|(_ & _ & ?)]]]; try discriminate; lia.
        -- apply int_raises in Hdep as Hv. subst e. split; [|done].
           intros _. do 3 right. done.
      * split; [intros ?; discriminate|].
        intros [?|[?|[?|(_ & ? & _)]]]; try discriminate; lia.
    + split; [intros ?; discriminate|].
      intros [?|[?|[?|(? & _ & _)]]]; try discriminate; lia.
  - apply int_raises in Hid as Hv. subst e. split; [|done]. auto.
Qed.

(** ** Searching by id *)

Lemma find_task_Some (parsed : list task) id i t :
  find_task id parsed = Some (i, t) →
  parsed !! i = Some t ∧ tid t = id ∧ (i < length parsed)%nat.
Proof.
  unfold find_task. intros (Hi & Hid & _)%list_find_Some.
  split_and!; [done..|]. by eapply lookup_lt_Some.
Qed.

Lemma find_task_None (parsed : list task) id :
  find_task id parsed = None ↔ id ∉ map tid parsed.
Proof.
  unfold find_task. rewrite list_find_None, Forall_forall. split.
  - intros H (t & -> & Ht)%list_elem_of_fmap. by apply (H t).
  - intros H t Ht <-. apply H. apply list_elem_of_fmap. eauto.
Qed.

(** Assigning a task of the same id at the index of the first task of the
    id leaves the tasks of every other id where they are, and brings no
    task of another id. *)
Lemma insert_frame (parsed : list task) id i t t' :
  find_task id parsed = Some (i, t) →
  tid t' = id →
  length (<[i:=t']> parsed) = length parsed
  ∧ ∀ j u, tid u ≠ id → <[i:=t']> parsed !! j = Some u ↔ parsed !! j = Some u.
Proof.
  intros (Hi & Hid & _)%find_task_Some Hid'. split; [apply length_insert|].
  intros j u Hne. destruct (decide (i = j)) as [<-|Hij].
  - split.
    + intros [(_ & <- & _)|[? _]]%list_lookup_insert_Some; done.
    + intros Hu. congruence.
  - by rewrite list_lookup_insert_ne.
Qed.

(** ** Lines of the old format *)

Lemma legacy_parse_line line f0 f1 n :
  split ";" (strip line) = [f0; f1] →
  int f0 = Return n →
  parse_line line = Some (Task n f1 [] "suspended" None).
Proof.
  intros Hparts Hid. unfold parse_line. rewrite Hparts.
  destruct (strip line) as [|c s]; [by inversion Hparts|].
  cbn [nonempty length Nat.leb]. unfold parse_parts, item, bind.
  cbn [nth length Nat.leb andb]. by rewrite Hid.
Qed.

(** C9.  A line that, once [parse_tasks] has stripped it, has exactly the
    two fields [f0;f1] with [f0] accepted by [int] as [n], gives the task
    [(n, f1, [], "suspended", None)] wherever it stands among the lines:
    between the tasks of the lines before it and those of the lines after
    it. *)
Theorem legacy_line_parses before line after f0 f1 n :
  split ";" (strip line) = [f0; f1] →
  int f0 = Return n →
  parse_tasks (before ++ line :: after)
  = (parse_tasks before ++ Task n f1 [] "suspended" None :: parse_tasks after)%list.
Proof.
  intros Hparts Hid. rewrite !parse_tasks_omap, omap_app. cbn [omap list_omap].
  by rewrite (legacy_parse_line _ _ _ _ Hparts Hid).
Qed.

(** The line of the scenario, ["5;Legacy task"], alone and between other
    lines. *)
Lemma legacy_line_parses_witness :
  parse_tasks ["5;Legacy task"] = [Task 5 "Legacy task" [] "suspended" None]
  ∧ parse_tasks ["1;A;x;started;None"; "junk"; "5;Legacy task"; "2;B;None;completed;1"]
    = [Task 1 "A" ["x"] "started" None; Task 5 "Legacy task" [] "suspended" None;
       Task 2 "B" [] "completed" (Some 1)].
Proof.
  split.
  - by apply (legacy_line_parses [] "5;Legacy task" [] "5" "Legacy task" 5).
  - by apply (legacy_line_parses ["1;A;x;started;None"; "junk"] "5;Legacy task"
                ["2;B;None;completed;1"] "5" "Legacy task" 5).
Defined.

(** ** Lines that are dropped *)

(** C6.  The line [1;a;b;c;²] (the last character is U+00B2) is not blank,
    has five fields and a first field that [int] reads as 1, and
    [parse_tasks] drops it: its fifth field passes [isdigit] and [int]
    rejects it, inside the [try] whose handler skips the line. *)
Theorem superscript_dependence_line_dropped :
  let line := "1;a;b;c;" ++ String "178"%char EmptyString in
  nonempty (strip line) = true
  ∧ length (split ";" (strip line)) = 5%nat
  ∧ int (item (split ";" (strip line)) 0) = Return 1
  ∧ isdigit (strip (item (split ";" (strip line)) 4)) = true
  ∧ int (strip (item (split ";" (strip line)) 4)) = Raise ValueError
  ∧ parse_tasks [line] = [].
Proof. by vm_compute. Qed.

(** ** The frame of the operations in place *)

(** C10.  When [modify], [add_options], [rmLabel], [clearLabel] or [rmDep]
    reports [found = True] for the id, the returned list has the length of
    the parsed list and, at every index, a task of another id is in the
    returned list exactly when it is in the parsed list: the tasks of the
    other ids are the parsed ones, each at its place. *)
Theorem mutation_frame op tasks task_id console id out old :
  int_of task_id = Return id →
  run op tasks task_id console = Return (true, out, old) →
  length out = length (parse_tasks tasks)
  ∧ ∀ j u, tid u ≠ id → out !! j = Some u ↔ parse_tasks tasks !! j = Some u.
Proof.
  intros Hid Hrun.
  destruct op as [nd ns|ls nd| | |]; simpl in Hrun;
    [unfold modify in Hrun|unfold add_options in Hrun|unfold rmLabel in Hrun
    |unfold clearLabel in Hrun|unfold rmDep in Hrun];
    rewrite Hid in Hrun;
    destruct (find_task id (parse_tasks tasks))
      as [[i [tid0 desc lab state dep]]|] eqn:Hfind; try discriminate;
    pose proof (find_task_Some _ _ _ _ Hfind) as (_ & Htid & _);
    simpl in Htid.
  - inversion Hrun; subst. by eapply insert_frame.
  - unfold bind in Hrun.
    destruct (match nd with Some _ => _ | None => _ end) as [dep'|e];
      [|discriminate].
    inversion Hrun; subst. by eapply insert_frame.
  - destruct lab as [|l lab].
    + inversion Hrun; subst. done.
    + unfold bind in Hrun.
      destruct (ask_index _ console) as [[n|]|e]; try discriminate.
      inversion Hrun; subst. by eapply insert_frame.
  - inversion Hrun; subst. by eapply insert_frame.
  - inversion Hrun; subst. by eapply insert_frame.
Qed.

Lemma mutation_frame_witness :
  length [Task 1 "A" [] "suspended" None; Task 2 "B" [] "suspended" None]
  = length (parse_tasks ["1;A;x,y;suspended;None"; "2;B;None;suspended;None"])
  ∧ ∀ j u,
      tid u ≠ 1 →
      [Task 1 "A" [] "suspended" None; Task 2 "B" [] "suspended" None] !! j = Some u
      ↔ parse_tasks ["1;A;x,y;suspended;None"; "2;B;None;suspended;None"] !! j = Some u.
Proof.
  apply (mutation_frame ClearLabel
           ["1;A;x,y;suspended;None"; "2;B;None;suspended;None"] (IdStr "1") []
           1 _ (Some (Task 1 "A" ["x"; "y"] "suspended" None)));
    by vm_compute.
Defined.

(** ** An id that no task has *)

(** What each operation in place does with an id that [int] accepts and no
    parsed task has. *)
Lemma absent_id_outcome op tasks task_id console id :
  int_of task_id = Return id →
  id ∉ map tid (parse_tasks tasks) →
  run op tasks task_id console =
    match op with
    | Modify _ _ | AddOptions _ _ => Return (false, parse_tasks tasks, None)
    | RmLabel | ClearLabel | RmDep => Raise UnboundLocalError
    end.
Proof.
  intros Hid Habs%find_task_None.
  destruct op; simpl;
    unfold modify, add_options, rmLabel, clearLabel, rmDep;
    by rewrite Hid, Habs.
Qed.

(** C4.  With the single task of id 1 in the file, [rmLabel], [clearLabel]
    and [rmDep] called for the id 2 raise [UnboundLocalError]; [modify] and
    [add_options] return [(False, parsed_tasks, None)]. *)
Theorem absent_id_unbound_old_task :
  let tasks := ["1;A;None;suspended;None"] in
  rmLabel tasks (IdInt 2) [] = Raise UnboundLocalError
  ∧ clearLabel tasks (IdInt 2) = Raise UnboundLocalError
  ∧ rmDep tasks (IdInt 2) = Raise UnboundLocalError
  ∧ modify tasks (IdInt 2) None None = Return (false, parse_tasks tasks, None)
  ∧ add_options tasks (IdInt 2) None None [] = Return (false, parse_tasks tasks, None).
Proof. by vm_compute. Qed.

(** ** Removal *)

Lemma rm_filter_spec id parsed acc old :
  rm_filter id parsed acc old
  = ((acc ++ filter (fun t => tid t ≠ id) parsed)%list,
     match last (filter (fun t => tid t = id) parsed) with
     | Some t => Some t
     | None => old
     end).
Proof.
  revert acc old. induction parsed as [|t parsed IH]; intros acc old; simpl.
  - by rewrite app_nil_r.
  - case_bool_decide as Hne.
    + rewrite IH, (filter_cons_True _ t) by done.
      rewrite (filter_cons_False (fun t => tid t = id)) by done.
      by rewrite <- app_assoc.
    + rewrite IH, (filter_cons_False _ t) by (by intros []).
      rewrite (filter_cons_True (fun t => tid t = id)) by done.
      destruct (filter (fun t => tid t = id) parsed) as [|u us]; [done|].
      simpl. by destruct (last (u :: us)) eqn:Hl;
        [|rewrite last_None in Hl].
Qed.

(** [rm] returns the parsed tasks of another id, each exactly as parsed:
    the list [final_tasks], in which the dependencies are cleared, is
    built and not returned. *)
Lemma rm_returns_filtered tasks task_id id found out old :
  int_of task_id = Return id →
  rm tasks task_id = Return (found, out, old) →
  out = filter (fun t => tid t ≠ id) (parse_tasks tasks)
  ∧ (found = true ↔ id ∈ map tid (parse_tasks tasks)).
Proof.
  intros Hid. unfold rm. rewrite Hid, rm_filter_spec. simpl.
  intros [= <- <- _]. split; [done|].
  rewrite Nat.ltb_lt. split.
  - intros Hlt. apply dec_stable. intros Habs.
    assert (filter (fun t => tid t ≠ id) (parse_tasks tasks) = parse_tasks tasks)
      as Heq; [|rewrite Heq in Hlt; lia].
    induction (parse_tasks tasks) as [|t l IH]; [done|].
    apply not_elem_of_cons in Habs as [Hne Habs].
    rewrite filter_cons_True by done. f_equal. apply IH; [|done].
    rewrite filter_cons_True in Hlt by done. simpl in Hlt. lia.
  - intros (t & -> & Ht)%list_elem_of_fmap.
    eapply length_filter_lt; [done|]. by intros [].
Qed.

(** What the discarded [final_tasks] holds: no dependency on the removed id. *)
Lemma rm_final_tasks_cleared id filtered t :
  t ∈ rm_final_tasks id true filtered → dependence t ≠ Some id.
Proof.
  unfold rm_final_tasks. intros ([tid0 desc lab st dep] & -> & _)%list_elem_of_fmap.
  unfold clear_dependence. by case_bool_decide.
Qed.

(** C1.  On the two lines of the example of [rm]'s documentation, removing
    the task 1 returns the task 2 with its dependency on 1 still there; the
    list [final_tasks] that [rm] builds from it has the dependency cleared. *)
Theorem rm_returns_uncleared_dependence :
  let tasks := ["1;T1;None;completed;None"; "2;T2;None;suspended;1"] in
  rm tasks (IdStr "1")
  = Return (true, [Task 2 "T2" [] "suspended" (Some 1)],
            Some (Task 1 "T1" [] "completed" None))
  ∧ rm_final_tasks 1 true [Task 2 "T2" [] "suspended" (Some 1)]
    = [Task 2 "T2" [] "suspended" None].
Proof. by vm_compute. Qed.

(** ** The dependency gate of [modify] *)

(** What [modify] returns for a task it finds, when the new status is
    neither absent nor ["started"] with a dependency. *)
Lemma modify_found tasks task_id id i t new_details new_status :
  int_of task_id = Return id →
  find_task id (parse_tasks tasks) = Some (i, t) →
  modify tasks task_id new_details new_status
  = Return (true,
            <[i := Task (tid t) (default (description t) new_details) (labels t)
                     (match new_status with
                      | None => status t
                      | Some new_status =>
                          match (new_status =? "started")%string, dependence t with
                          | true, Some d =>
                              match find_task d (parse_tasks tasks) with
                              | Some (_, p) =>
                                  if (status p =? "completed")%string
                                  then new_status else status t
                              | None => new_status
                              end
                          | _, _ =>
                              if str_in new_status valid_statuses
                              then new_status else status t
                          end
                      end)
                     (dependence t)]> (parse_tasks tasks),
            Some t).
Proof.
  intros Hid Hfind. unfold modify. rewrite Hid, Hfind.
  destruct t as [tid0 desc lab state dep]. simpl.
  destruct new_details, new_status as [ns|]; simpl; try done;
    (destruct (ns =? "started")%string; [|done]);
    (destruct dep as [d|]; [|done]);
    (destruct (find_task d (parse_tasks tasks)) as [[j [? ? ? pstate ?]]|]; [|done]);
    simpl; by destruct (pstate =? "completed")%string.
Qed.

(** C7.  [modify] with the new status ["started"], on a task that has the
    dependency [d]: when the first task of id [d] is not completed, the
    task keeps its status; when it is completed, or no task has the id [d],
    the status becomes ["started"].  In each case the task is found, its
    description is the new one if one is given, and the other tasks and
    fields are as parsed. *)
Theorem modify_started_with_dependence tasks task_id id i t d new_details :
  int_of task_id = Return id →
  find_task id (parse_tasks tasks) = Some (i, t) →
  dependence t = Some d →
  let parsed := parse_tasks tasks in
  let updated state :=
    Return (true,
            <[i := Task (tid t) (default (description t) new_details) (labels t)
                     state (Some d)]> parsed,
            Some t) in
  (∀ j p, find_task d parsed = Some (j, p) → status p ≠ "completed" →
     modify tasks task_id new_details (Some "started") = updated (status t))
  ∧ (∀ j p, find_task d parsed = Some (j, p) → status p = "completed" →
     modify tasks task_id new_details (Some "started") = updated "started")
  ∧ (d ∉ map tid parsed →
     modify tasks task_id new_details (Some "started") = updated "started").
Proof.
  intros Hid Hfind Hdep parsed updated. subst parsed updated. cbv beta.
  rewrite (modify_found _ _ _ _ _ _ _ Hid Hfind), Hdep.
  change ("started" =? "started")%string with true. cbv iota.
  split_and!.
  - intros j p -> Hp. apply String.eqb_neq in Hp. by rewrite Hp.
  - intros j p -> Hp. apply String.eqb_eq in Hp. by rewrite Hp.
  - intros Habs%find_task_None. by rewrite Habs.
Qed.

Lemma modify_started_with_dependence_witness :
  let tasks := ["1;A;None;started;None"; "2;B;None;suspended;1";
                "3;C;None;completed;None"; "4;D;None;cancelled;3";
                "5;E;None;suspended;9"] in
  modify tasks (IdInt 2) None (Some "started")
  = Return (true, <[1%nat := Task 2 "B" [] "suspended" (Some 1)]> (parse_tasks tasks),
            Some (Task 2 "B" [] "suspended" (Some 1)))
  ∧ modify tasks (IdInt 4) None (Some "started")
    = Return (true, <[3%nat := Task 4 "D" [] "started" (Some 3)]> (parse_tasks tasks),
              Some (Task 4 "D" [] "cancelled" (Some 3)))
  ∧ modify tasks (IdInt 5) None (Some "started")
    = Return (true, <[4%nat := Task 5 "E" [] "started" (Some 9)]> (parse_tasks tasks),
              Some (Task 5 "E" [] "suspended" (Some 9))).
Proof.
  intros tasks. split_and!.
  - apply (proj1 (modify_started_with_dependence tasks (IdInt 2) 2 1%nat
                    (Task 2 "B" [] "suspended" (Some 1)) 1 None
                    eq_refl eq_refl eq_refl)
             0%nat (Task 1 "A" [] "started" None)); by vm_compute.
  - apply (proj1 (proj2 (modify_started_with_dependence tasks (IdInt 4) 4 3%nat
                    (Task 4 "D" [] "cancelled" (Some 3)) 3 None
                    eq_refl eq_refl eq_refl))
             2%nat (Task 3 "C" [] "completed" None)); by vm_compute.
  - apply (proj2 (proj2 (modify_started_with_dependence tasks (IdInt 5) 5 4%nat
                    (Task 5 "E" [] "suspended" (Some 9)) 9 None
                    eq_refl eq_refl eq_refl))).
    vm_compute. by intros H; repeat (apply elem_of_cons in H as [H|H]; [done|]);
      apply elem_of_nil in H.
Defined.

(** C2, as the code has it.  For a task with a dependency whose first
    task in the list is not completed, [modify] refuses the status
    ["started"] and the task keeps its status, and applies the status
    ["completed"]: the gate is on ["started"] alone. *)
Theorem modify_gate_on_started_only tasks task_id id i t d j p new_details :
  int_of task_id = Return id →
  find_task id (parse_tasks tasks) = Some (i, t) →
  dependence t = Some d →
  find_task d (parse_tasks tasks) = Some (j, p) →
  status p ≠ "completed" →
  modify tasks task_id new_details (Some "started")
  = Return (true,
            <[i := Task (tid t) (default (description t) new_details) (labels t)
                     (status t) (Some d)]> (parse_tasks tasks),
            Some t)
  ∧ modify tasks task_id new_details (Some "completed")
    = Return (true,
              <[i := Task (tid t) (default (description t) new_details) (labels t)
                       "completed" (Some d)]> (parse_tasks tasks),
              Some t).
Proof.
  intros Hid Hfind Hdep Hparent Hp.
  rewrite !(modify_found _ _ _ _ _ _ _ Hid Hfind), Hdep, Hparent.
  apply String.eqb_neq in Hp. rewrite Hp. done.
Qed.

Lemma modify_gate_on_started_only_witness :
  let tasks := ["1;A;None;suspended;None"; "2;B;None;suspended;1"] in
  modify tasks (IdInt 2) None (Some "started")
  = Return (true, <[1%nat := Task 2 "B" [] "suspended" (Some 1)]> (parse_tasks tasks),
            Some (Task 2 "B" [] "suspended" (Some 1)))
  ∧ modify tasks (IdInt 2) None (Some "completed")
    = Return (true, <[1%nat := Task 2 "B" [] "completed" (Some 1)]> (parse_tasks tasks),
              Some (Task 2 "B" [] "suspended" (Some 1))).
Proof.
  intros tasks.
  apply (modify_gate_on_started_only tasks (IdInt 2) 2 1%nat
           (Task 2 "B" [] "suspended" (Some 1)) 1 0%nat
           (Task 1 "A" [] "suspended" None) None); by vm_compute.
Defined.

(** C2, as stated, fails for the status ["completed"]: the task 2 depends
    on the task 1, which is suspended, and [modify] stores ["completed"]
    for the task 2, whose status was ["suspended"]. *)
Lemma modify_completed_not_refused :
  let tasks := ["1;A;None;suspended;None"; "2;B;None;suspended;1"] in
  parse_tasks tasks
  = [Task 1 "A" [] "suspended" None; Task 2 "B" [] "suspended" (Some 1)]
  ∧ modify tasks (IdInt 2) None (Some "completed")
    = Return (true,
              [Task 1 "A" [] "suspended" None; Task 2 "B" [] "completed" (Some 1)],
              Some (Task 2 "B" [] "suspended" (Some 1)))
  ∧ ¬ (∃ out old,
         modify tasks (IdInt 2) None (Some "completed") = Return (true, out, old)
         ∧ status <$> out !! 1%nat = Some "suspended").
Proof.
  intros tasks. split_and!; [by vm_compute..|].
  intros (out & old & Hm & Hst). vm_compute in Hm.
  injection Hm as <- _. by vm_compute in Hst.
Qed.

(** ** Strings: stripping, splitting, joining *)

Section Strings.

Implicit Types (s a b : str) (c sep : ascii) (p : ascii → bool).

Lemma nonempty_app a b : nonempty (a ++ b) = nonempty a || nonempty b.
Proof. by destruct a. Qed.

Lemma all_chars_app q a b :
  all_chars q (a ++ b) = all_chars q a && all_chars q b.
Proof.
  induction a as [|c a IH]; simpl; [done|]. by rewrite IH, andb_assoc.
Qed.

Lemma all_chars_impl (q r : ascii → bool) s :
  (∀ c, q c = true → r c = true) → all_chars q s = true → all_chars r s = true.
Proof.
  intros Hqr. induction s as [|c s IH]; simpl; [done|].
  intros [Hc Hs]%andb_true_iff. by rewrite (Hqr c Hc), IH.
Qed.

Lemma char_in_all_chars c s :
  char_in c s = false ↔ all_chars (fun x => negb (Ascii.eqb x c)) s = true.
Proof.
  induction s as [|x s IH]; simpl; [done|].
  rewrite orb_false_iff, andb_true_iff, negb_true_iff. by rewrite IH.
Qed.

Lemma char_in_app c a b : char_in c (a ++ b) = char_in c a || char_in c b.
Proof. induction a as [|x a IH]; simpl; [done|]. by rewrite IH, orb_assoc. Qed.

(** Nothing to strip on the left of a string that starts with a character
    outside [p]. *)
Lemma lstrip_by_head p c s : p c = false → lstrip_by p (String c s) = String c s.
Proof. intros H. simpl. by rewrite H. Qed.

Lemma rstrip_by_none p s :
  all_chars (fun c => negb (p c)) s = true → rstrip_by p s = s.
Proof.
  induction s as [|c s IH]; simpl; [done|].
  intros [Hc Hs]%andb_true_iff. apply negb_true_iff in Hc.
  by rewrite Hc, IH.
Qed.

Lemma lstrip_by_none p s :
  all_chars (fun c => negb (p c)) s = true → lstrip_by p s = s.
Proof.
  destruct s as [|c s]; simpl; [done|].
  intros [Hc _]%andb_true_iff. apply negb_true_iff in Hc. by rewrite Hc.
Qed.

(** Stripping on the right stops inside [b] when something of [b] is left. *)
Lemma rstrip_by_app p a b :
  nonempty (rstrip_by p b) = true → rstrip_by p (a ++ b) = a ++ rstrip_by p b.
Proof.
  intros Hb. induction a as [|c a IH]; simpl; [done|].
  rewrite IH, nonempty_app, Hb, orb_true_r. simpl. by rewrite andb_false_r.
Qed.

Lemma rstrip_by_last p s c :
  all_chars (fun c => negb (p c)) s = true → p c = true →
  rstrip_by p (s ++ String c EmptyString) = s.
Proof.
  intros Hs Hc. induction s as [|x s IH]; simpl.
  - by rewrite Hc.
  - simpl in Hs. apply andb_true_iff in Hs as [Hx Hs].
    apply negb_true_iff in Hx. by rewrite IH, Hx.
Qed.

Lemma split_without sep s : char_in sep s = false → split sep s = [s].
Proof.
  induction s as [|c s IH]; simpl; [done|].
  intros [Hc Hs]%orb_false_iff. by rewrite Hc, IH.
Qed.

Lemma split_app sep a b :
  char_in sep a = false →
  split sep (a ++ String sep b) = a :: split sep b.
Proof.
  induction a as [|c a IH]; simpl.
  - by rewrite Ascii.eqb_refl.
  - intros [Hc Ha]%orb_false_iff. by rewrite Hc, IH.
Qed.

(** Splitting what [join] made gives the list back, for a list with at
    least one string and no string that holds the separator. *)
Lemma split_join sep (l : list str) :
  l ≠ [] → Forall (fun x => char_in sep x = false) l →
  split sep (join (String sep EmptyString) l) = l.
Proof.
  intros Hne Hl. induction Hl as [|x l Hx Hl IH]; [done|].
  destruct l as [|y l]; simpl.
  - by apply split_without.
  - change (split sep (x ++ String sep (join (String sep EmptyString) (y :: l)))
            = x :: y :: l).
    rewrite split_app by done. f_equal. by apply IH.
Qed.

Lemma char_in_join c sep (l : list str) :
  Forall (fun x => char_in c x = false) l → Ascii.eqb sep c = false →
  char_in c (join (String sep EmptyString) l) = false.
Proof.
  intros Hl Hsep. induction Hl as [|x l Hx Hl IH]; [done|].
  destruct l as [|y l]; [done|].
  change (char_in c (x ++ String sep (join (String sep EmptyString) (y :: l)))
          = false).
  rewrite char_in_app, Hx. cbn [char_in orb]. by rewrite Hsep, IH.
Qed.

Lemma parse_labels_join (l : list str) :
  l ≠ [] →
  Forall (fun x => nonempty x = true ∧ char_in "," x = false ∧ strip x = x) l →
  parse_labels (join "," l) = l.
Proof.
  intros Hne Hl. unfold parse_labels. rewrite split_join; [|done|].
  - induction Hl as [|x l (Hx & _ & Hs) Hl IH]; [done|]. simpl.
    rewrite Hs, Hx. f_equal. destruct l as [|y l]; [done|]. by apply IH.
  - eapply Forall_impl; [done|]. by intros x (_ & ? & _).
Qed.

End Strings.

(** ** Integers: [int] reads what [str] writes *)

Section Integers.

Ltac by_cases_on c :=
  destruct c as [[] [] [] [] [] [] [] []]; try discriminate; try reflexivity.

Lemma string_of_uint_decimal u :
  all_chars isdecimal_char (NilEmpty.string_of_uint u) = true.
Proof. induction u; simpl; done. Qed.

Lemma string_of_uint_head u :
  u ≠ Nil →
  ∃ c r, NilEmpty.string_of_uint u = String c r ∧ isdecimal_char c = true.
Proof. destruct u; [done|..]; intros _; simpl; eauto. Qed.

Lemma digit_run_cons d D c r :
  decimal d = Some D → isdecimal_char c = true →
  digit_run (String d (String c r)) = option_map D (digit_run (String c r)).
Proof.
  intros Hd Hc. change (digit_run (String d (String c r))) with
    (match decimal d with
     | None => None
     | Some d' =>
         match String c r with
         | EmptyString => Some (d' Nil)
         | String "_"%char s'' => option_map d' (digit_run s'')
         | _ => option_map d' (digit_run (String c r))
         end
     end).
  rewrite Hd. revert Hc. by_cases_on c.
Qed.

Lemma digit_run_string_of_uint u :
  u ≠ Nil → digit_run (NilEmpty.string_of_uint u) = Some u.
Proof.
  induction u as [|u IH|u IH|u IH|u IH|u IH|u IH|u IH|u IH|u IH|u IH];
    [done|..]; intros _;
    (destruct (Decimal.uint_eq_dec u Nil) as [->|Hu]; [done|]);
    destruct (string_of_uint_head u Hu) as (c & r & Hs & Hc);
    specialize (IH Hu);
    cbn [NilEmpty.string_of_uint]; rewrite Hs in IH |- *;
    (erewrite digit_run_cons; [|reflexivity|done]); by rewrite IH.
Qed.

Lemma to_uint_nonnil n : N.to_uint n ≠ Nil.
Proof. destruct n; [done|]. apply DecimalPos.Unsigned.to_uint_nonnil. Qed.

Lemma magnitude_string_of_uint n :
  magnitude (NilEmpty.string_of_uint (N.to_uint n)) = Some (Z.of_N n).
Proof.
  unfold magnitude. rewrite digit_run_string_of_uint by apply to_uint_nonnil.
  simpl. by rewrite DecimalN.Unsigned.of_to.
Qed.

Lemma str_of_int_chars n : all_chars in_int_str (str_of_int n) = true.
Proof.
  unfold str_of_int. destruct (n <? 0); simpl;
    (eapply all_chars_impl; [|apply string_of_uint_decimal]);
    intros c Hc; unfold in_int_str; by rewrite Hc.
Qed.

Lemma str_of_int_head n :
  ∃ c r, str_of_int n = String c r ∧ in_int_str c = true.
Proof.
  unfold str_of_int. destruct (n <? 0); [by eauto|].
  destruct (string_of_uint_head (N.to_uint (Z.to_N n))) as (c & r & -> & Hc);
    [apply to_uint_nonnil|].
  exists c, r. unfold in_int_str. by rewrite Hc.
Qed.

Lemma in_int_str_not_space c : in_int_str c = true → negb (isspace c) = true.
Proof. by_cases_on c. Qed.

Lemma in_int_str_not_int_space c : in_int_str c = true → negb (int_space c) = true.
Proof. by_cases_on c. Qed.

Lemma in_int_str_not_semicolon c :
  in_int_str c = true → negb (Ascii.eqb c ";") = true.
Proof. by_cases_on c. Qed.

Lemma int_str_of_int n : int (str_of_int n) = Return n.
Proof.
  unfold int.
  rewrite (lstrip_by_none int_space), (rstrip_by_none int_space)
    by (eapply all_chars_impl; [apply in_int_str_not_int_space|apply str_of_int_chars]).
  unfold str_of_int. destruct (Z.ltb_spec n 0) as [Hn|Hn].
  - rewrite magnitude_string_of_uint. simpl. f_equal. lia.
  - destruct (string_of_uint_head (N.to_uint (Z.to_N n))) as (c & r & Hs & Hc);
      [apply to_uint_nonnil|].
    pose proof (magnitude_string_of_uint (Z.to_N n)) as Hm.
    rewrite Hs in Hm |- *.
    assert (match String c r with
            | String "-"%char ds => option_map Z.opp (magnitude ds)
            | String "+"%char ds => magnitude ds
            | _ => magnitude (String c r)
            end = magnitude (String c r)) as ->.
    { revert Hc. clear. by_cases_on c. }
    rewrite Hm. f_equal. lia.
Qed.

End Integers.

(** ** From a task to its line and back *)

Lemma rstrip_by_app_nonempty p a b :
  nonempty (rstrip_by p b) = true → nonempty (rstrip_by p (a ++ b)) = true.
Proof.
  intros Hb. rewrite rstrip_by_app by done.
  by rewrite nonempty_app, Hb, orb_true_r.
Qed.

Lemma dep_str_chars id_dep :
  all_chars (fun c => negb (isspace c)) (dep_str id_dep) = true
  ∧ char_in ";" (dep_str id_dep) = false
  ∧ nonempty (dep_str id_dep) = true.
Proof.
  destruct id_dep as [d|]; [|done]. simpl. split_and!.
  - eapply all_chars_impl; [apply in_int_str_not_space|apply str_of_int_chars].
  - apply char_in_all_chars.
    eapply all_chars_impl; [apply in_int_str_not_semicolon|apply str_of_int_chars].
  - by destruct (str_of_int_head d) as (c & r & -> & _).
Qed.


Lemma rstrip_by_app_eq p a b r :
  rstrip_by p b = r → nonempty r = true → rstrip_by p (a ++ b) = a ++ r.
Proof. intros <- Hr. by apply rstrip_by_app. Qed.

(** What [strip] leaves of a line of [task_line]: the line without its
    line feed. *)
Lemma strip_task_line new_id details labels_list status id_dep :
  strip (task_line new_id details labels_list status id_dep)
  = str_of_int new_id ++ ";" ++ details ++ ";" ++ labels_str labels_list ++ ";"
    ++ status ++ ";" ++ dep_str id_dep.
Proof.
  destruct (dep_str_chars id_dep) as (Hsp & _ & Hne).
  unfold strip, task_line.
  destruct (str_of_int_head new_id) as (c & r & -> & Hc).
  apply in_int_str_not_space, negb_true_iff in Hc.
  change (String c r ++ ?x) with (String c (r ++ x)) at 1.
  rewrite lstrip_by_head by done.
  change (String c (r ++ ?x)) with (String c r ++ x).
  do 8 (apply rstrip_by_app_eq;
        [|rewrite ?nonempty_app, Hne; by rewrite ?orb_true_r]).
  by apply rstrip_by_last.
Qed.

Lemma split_field sep a b :
  char_in sep a = false →
  split sep (a ++ String sep EmptyString ++ b) = a :: split sep b.
Proof. apply split_app. Qed.

Lemma labels_str_join (l : list str) :
  l ≠ [] → l ≠ ["None"] →
  Forall (fun x => char_in "," x = false) l →
  labels_str l = join "," l ∧ (join "," l =? "None")%string = false.
Proof.
  intros Hne Hnone Hl. split; [by destruct l|].
  apply String.eqb_neq. intros Heq.
  pose proof (split_join "," l Hne Hl) as Hs. rewrite Heq in Hs.
  by vm_compute in Hs.
Qed.




(** ** The id [add] assigns *)

Lemma max_id_fold rest m :
  let r := fold_left (fun m t' => Z.max m (tid t')) rest m in
  m ≤ r ∧ (∀ t, t ∈ rest → tid t ≤ r) ∧ (r = m ∨ ∃ t, t ∈ rest ∧ tid t = r).
Proof.
  revert m. induction rest as [|u rest IH]; intros m; simpl.
  - split_and!; [lia| |by left]. by intros t ?%elem_of_nil.
  - destruct (IH (Z.max m (tid u))) as (Hle & Hall & Hex). split_and!.
    + lia.
    + intros t [->|Ht]%elem_of_cons; [lia|by apply Hall].
    + destruct Hex as [Hr|(t & Ht & Hr)].
      * destruct (Z.max_spec m (tid u)) as [[_ Hm]|[_ Hm]].
        -- right. exists u. split; [by left|]. lia.
        -- left. lia.
      * right. exists t. split; [by right|done].
Qed.

(** [max_id] is the largest id of the list: the id of one of its tasks, and
    no task has a larger one. *)
Lemma max_id_spec parsed :
  parsed ≠ [] →
  ∃ t, t ∈ parsed ∧ tid t = max_id parsed ∧ ∀ u, u ∈ parsed → tid u ≤ tid t.
Proof.
  destruct parsed as [|t0 rest]; [done|]. intros _. unfold max_id.
  destruct (max_id_fold rest (tid t0)) as (Hle & Hall & [Hr|(t & Ht & Hr)]).
  - exists t0. split_and!; [by left|done|].
    intros u [->|Hu]%elem_of_cons; [done|]. rewrite <- Hr. by apply Hall.
  - exists t. split_and!; [by right|done|].
    intros u [->|Hu]%elem_of_cons; rewrite Hr; [done|by apply Hall].
Qed.

(** Writing an integer, under the limit on the digits. *)
Lemma format_int_within n :
  (int_digits n ≤ max_str_digits)%nat → format_int n = Return (str_of_int n).
Proof.
  intros H. unfold format_int.
  by destruct (Nat.ltb_spec max_str_digits (int_digits n)); [lia|].
Qed.

Lemma format_int_beyond n :
  (max_str_digits < int_digits n)%nat → format_int n = Raise ValueError.
Proof.
  intros H. unfold format_int.
  by destruct (Nat.ltb_spec max_str_digits (int_digits n)); [|lia].
Qed.

Lemma format_task_line_within new_id details L st id_dep :
  (int_digits new_id ≤ max_str_digits)%nat →
  (∀ d, id_dep = Some d → (int_digits d ≤ max_str_digits)%nat) →
  format_task_line new_id details L st id_dep
  = Return (task_line new_id details L st id_dep).
Proof.
  intros Hid Hdep. unfold format_task_line.
  rewrite (format_int_within new_id Hid). cbn [bind].
  destruct id_dep as [d|]; [|done].
  by rewrite (format_int_within d (Hdep d eq_refl)).
Qed.

Lemma format_task_line_Return new_id details L st id_dep line :
  format_task_line new_id details L st id_dep = Return line →
  line = task_line new_id details L st id_dep
  ∧ (int_digits new_id ≤ max_str_digits)%nat.
Proof.
  unfold format_task_line, format_int.
  destruct (Nat.ltb_spec max_str_digits (int_digits new_id)); [done|].
  cbn [bind]. destruct id_dep as [d|].
  - destruct (max_str_digits <? int_digits d)%nat; [done|].
    cbn [bind]. by intros [= <-].
  - cbn [bind]. by intros [= <-].
Qed.

Lemma format_task_line_raises new_id details L st id_dep e :
  format_task_line new_id details L st id_dep = Raise e →
  e = ValueError
  ∧ ((max_str_digits < int_digits new_id)%nat
     ∨ ∃ d, id_dep = Some d ∧ (max_str_digits < int_digits d)%nat).
Proof.
  unfold format_task_line, format_int.
  destruct (Nat.ltb_spec max_str_digits (int_digits new_id)).
  - intros [= <-]. split; [done|by left].
  - cbn [bind]. destruct id_dep as [d|]; [|done].
    destruct (Nat.ltb_spec max_str_digits (int_digits d)); [|done].
    intros [= <-]. split; [done|]. right. by exists d.
Qed.

(** The first three components of what [add] returns do not depend on the
    console. *)
Lemma add_returns tasks details labels status console new_id d l line :
  add tasks details labels status console = Return (Some (new_id, d, l, line)) →
  new_id = match parse_tasks tasks with
           | [] => 1
           | _ => max_id (parse_tasks tasks) + 1
           end
  ∧ d = details ∧ l = default [] labels.
Proof.
  unfold add. intros H.
  match type of H with
  | context [match ?m with Return _ => _ | Raise _ => _ end] =>
      destruct m as [[id_dep st]|[]]; try discriminate
  end.
  unfold bind in H.
  destruct (format_task_line _ _ _ _ _); [|discriminate].
  injection H as <- <- <- _. by destruct labels.
Qed.

(** C3, as the code has it.  On an empty parsed list [add] returns the
    id 1, whatever the console.  On a list that is not empty, when the user
    answers n, [add] returns one more than the largest id if that number
    has no more digits than the limit, and raises [ValueError] otherwise.
    Whenever [add] returns a task, its id is 1 for an empty parsed list and
    otherwise one more than the id of a parsed task that no parsed task
    exceeds; so it is larger than every parsed id.  The ids of removed
    tasks are not kept: on lines that hold what [rm] returned, [add]
    assigns the removed id again exactly when that id is one more than the
    largest id left, or is 1 and nothing is left. *)
Theorem add_assigns_next_id tasks details labels status console :
  (parse_tasks tasks = [] →
     ∃ line, add tasks details labels status console
             = Return (Some (1, details, default [] labels, line)))
  ∧ (parse_tasks tasks ≠ [] →
     (int_digits (max_id (parse_tasks tasks) + 1) ≤ max_str_digits)%nat →
     ∃ line, add tasks details labels status (Typed "n" :: console)
             = Return (Some (max_id (parse_tasks tasks) + 1, details,
                             default [] labels, line)))
  ∧ (parse_tasks tasks ≠ [] →
     (max_str_digits < int_digits (max_id (parse_tasks tasks) + 1))%nat →
     add tasks details labels status (Typed "n" :: console) = Raise ValueError)
  ∧ (∀ new_id d l line,
       add tasks details labels status console = Return (Some (new_id, d, l, line)) →
       (parse_tasks tasks = [] → new_id = 1)
       ∧ (parse_tasks tasks ≠ [] →
          ∃ t, t ∈ parse_tasks tasks ∧ new_id = tid t + 1
               ∧ ∀ u, u ∈ parse_tasks tasks → tid u ≤ tid t)
       ∧ (∀ u, u ∈ parse_tasks tasks → tid u < new_id))
  ∧ (∀ before task_id id out old new_id d l line,
       int_of task_id = Return id →
       rm before task_id = Return (true, out, old) →
       parse_tasks tasks = out →
       add tasks details labels status console = Return (Some (new_id, d, l, line)) →
       new_id = id ↔ (out = [] ∧ id = 1) ∨ (out ≠ [] ∧ id = max_id out + 1)).
Proof.
  split_and!.
  - intros Hempty. unfold add. rewrite Hempty.
    rewrite format_task_line_within;
      [by eexists|by apply Nat.leb_le; vm_compute|done].
  - intros Hne Hdigits. unfold add.
    destruct (parse_tasks tasks) as [|t0 rest]; [done|].
    assert (ask_yes_no (Typed "n" :: console) = Return ("n", console)) as ->
      by reflexivity.
    cbn [bind]. change (str_in "n" ["oui"; "o"]) with false. cbv iota.
    rewrite format_task_line_within by done.
    destruct labels; eexists; reflexivity.
  - intros Hne Hdigits. unfold add.
    destruct (parse_tasks tasks) as [|t0 rest]; [done|].
    assert (ask_yes_no (Typed "n" :: console) = Return ("n", console)) as ->
      by reflexivity.
    cbn [bind]. change (str_in "n" ["oui"; "o"]) with false. cbv iota.
    unfold format_task_line. by rewrite (format_int_beyond _ Hdigits).
  - intros new_id d l line (Hid & _ & _)%add_returns.
    destruct (parse_tasks tasks) as [|t0 rest] eqn:Hp.
    + split_and!; [done|done|]. by intros u ?%elem_of_nil.
    + destruct (max_id_spec (t0 :: rest)) as (t & Ht & Hmax & Hall); [done|].
      rewrite <- Hmax in Hid. split_and!; [done|by eauto|].
      intros u Hu. specialize (Hall u Hu). lia.
  - intros before task_id id out old new_id d l line _ _ Hout
      (Hid & _ & _)%add_returns.
    rewrite Hout in Hid. subst new_id.
    destruct out as [|t0 rest]; split.
    + intros <-. by left.
    + by intros [[_ ->]|[? _]].
    + intros <-. by right.
    + by intros [[? _]|[_ ->]].
Qed.

Lemma add_assigns_next_id_witness :
  (∃ line, add [""; "x;y"] "first" None "started" [CtrlC]
           = Return (Some (1, "first", [], line)))
  ∧ (∃ line, add ["4;A"; "9;B;None;completed"; "2;C"] "next" (Some ["l"]) "started"
               [Typed "n"]
             = Return (Some (10, "next", ["l"], line)))
  ∧ (∀ u, u ∈ parse_tasks ["4;A"; "9;B;None;completed"; "2;C"] → tid u < 10)
  ∧ (2 = 5 ↔ ([Task 1 "A" [] "suspended" None] = [] ∧ 5 = 1)
             ∨ ([Task 1 "A" [] "suspended" None] ≠ []
                ∧ 5 = max_id [Task 1 "A" [] "suspended" None] + 1)).
Proof.
  split_and!.
  - apply (proj1 (add_assigns_next_id [""; "x;y"] "first" None "started" [CtrlC])).
    by vm_compute.
  - apply (proj1 (proj2 (add_assigns_next_id ["4;A"; "9;B;None;completed"; "2;C"]
                           "next" (Some ["l"]) "started" []))).
    + by vm_compute.
    + apply Nat.leb_le. by vm_compute.
  - apply (proj1 (proj2 (proj2 (proj2 (add_assigns_next_id
                           ["4;A"; "9;B;None;completed"; "2;C"]
                           "next" (Some ["l"]) "started"
                           [Typed "oui"; Typed "9"]))))
             10 "next" ["l"] (task_line 10 "next" ["l"] "started" (Some 9))).
    by vm_compute.
  - apply (proj2 (proj2 (proj2 (proj2 (add_assigns_next_id ["1;A"] "C" None
                           "suspended" [Typed "n"]))))
             ["1;A"; "5;B"] (IdInt 5) 5 [Task 1 "A" [] "suspended" None]
             (Some (Task 5 "B" [] "suspended" None)) 2 "C" []
             (task_line 2 "C" [] "suspended" None));
      by vm_compute.
Defined.

(** C3, as stated, fails: the id 2 is assigned, its task is removed, and
    the next [add], on a file that holds what [rm] returned, assigns the
    id 2 again. *)
Lemma id_reused_after_rm :
  ∃ l1 l2 l3 rest old,
    add [] "A" None "suspended" [] = Return (Some (1, "A", [], l1))
    ∧ add [l1] "B" None "suspended" [Typed "n"] = Return (Some (2, "B", [], l2))
    ∧ rm [l1; l2] (IdInt 2) = Return (true, rest, old)
    ∧ parse_tasks [l1] = rest
    ∧ add [l1] "C" None "suspended" [Typed "n"] = Return (Some (2, "C", [], l3)).
Proof.
  exists (task_line 1 "A" [] "suspended" None),
         (task_line 2 "B" [] "suspended" None),
         (task_line 2 "C" [] "suspended" None),
         [Task 1 "A" [] "suspended" None],
         (Some (Task 2 "B" [] "suspended" None)).
  split_and!; vm_compute; reflexivity.
Qed.

(** ** Labels *)

Lemma str_in_elem_of x (l : list str) : str_in x l = true ↔ x ∈ l.
Proof.
  unfold str_in. rewrite existsb_exists. split.
  - intros (y & Hy%list_elem_of_In & ->%String.eqb_eq). done.
  - intros Hx. exists x. split; [by apply list_elem_of_In|apply String.eqb_refl].
Qed.

(** No label that [parse_tasks] reads is the empty string. *)
Lemma parse_labels_nonempty field : "" ∉ parse_labels field.
Proof.
  unfold parse_labels. intros H%list_elem_of_In.
  apply filter_In in H as [_ H]. done.
Qed.

Lemma parse_line_labels line t : parse_line line = Some t → "" ∉ labels t.
Proof.
  unfold parse_line.
  destruct (nonempty (strip line)); [|done].
  destruct (2 <=? _)%nat; [|done]. unfold parse_parts, bind.
  destruct (int _); [|done]. destruct (if _ && isdigit _ then _ else _); [|done].
  intros [= <-]. cbn [labels].
  destruct (_ && negb _); [apply parse_labels_nonempty|apply not_elem_of_nil].
Qed.

Lemma parse_tasks_labels tasks t : t ∈ parse_tasks tasks → "" ∉ labels t.
Proof.
  rewrite parse_tasks_omap. intros (line & _ & Hline)%list_elem_of_omap.
  by eapply parse_line_labels.
Qed.

(** [add_options] adds the labels the list does not have yet. *)
Lemma merge_labels_elem_of lab ls x :
  x ∈ merge_labels lab ls ↔ x ∈ lab ∨ x ∈ ls.
Proof.
  unfold merge_labels. revert lab.
  induction ls as [|l ls IH]; intros lab; simpl.
  - split; [by left|]. by intros [?|?%elem_of_nil].
  - rewrite IH. destruct (str_in l lab) eqn:Hl.
    + apply str_in_elem_of in Hl. rewrite elem_of_cons.
      split; [tauto|]. intros [?|[->|?]]; tauto.
    + rewrite elem_of_app, list_elem_of_singleton, elem_of_cons. tauto.
Qed.

Lemma merge_labels_NoDup lab ls : NoDup lab → NoDup (merge_labels lab ls).
Proof.
  unfold merge_labels. revert lab.
  induction ls as [|l ls IH]; intros lab Hlab; simpl; [done|].
  apply IH. destruct (str_in l lab) eqn:Hl; [done|].
  apply NoDup_app. split_and!; [done| |apply NoDup_singleton].
  intros x Hx ->%list_elem_of_singleton.
  apply str_in_elem_of in Hx. congruence.
Qed.

Lemma elem_of_insert_inv {A} (l : list A) i x y :
  y ∈ <[i:=x]> l → y = x ∨ y ∈ l.
Proof.
  intros (j & Hj)%list_elem_of_lookup.
  apply list_lookup_insert_Some in Hj as [(_ & -> & _)|(_ & Hj)]; [by left|].
  right. by eapply list_elem_of_lookup_2.
Qed.

(** The list an operation in place returns: empty, the parsed list, or the
    parsed list with one task replaced by a task of the same id, whose
    labels are some of the labels it had or, for [add_options], those
    merged with the given ones.  So each returned task stands at the index
    of the parsed task it comes from. *)
Lemma run_labels op tasks task_id console found out old j t' :
  run op tasks task_id console = Return (found, out, old) →
  out !! j = Some t' →
  ∃ t, parse_tasks tasks !! j = Some t
       ∧ tid t' = tid t
       ∧ (labels t' `sublist_of` labels t
          ∨ ∃ ls d, op = AddOptions (Some ls) d
                    ∧ labels t' = merge_labels (labels t) ls).
Proof.
  intros Hrun Hj.
  assert (parse_tasks tasks !! j = Some t' →
          ∃ t, parse_tasks tasks !! j = Some t ∧ tid t' = tid t
               ∧ (labels t' `sublist_of` labels t
                  ∨ ∃ ls d, op = AddOptions (Some ls) d
                            ∧ labels t' = merge_labels (labels t) ls)) as Hsame
    by (intros H; exists t'; split_and!; [done|done|by left]).
  destruct op as [nd ns|ls nd| | |]; simpl in Hrun;
    [unfold modify in Hrun|unfold add_options in Hrun|unfold rmLabel in Hrun
    |unfold clearLabel in Hrun|unfold rmDep in Hrun];
    (destruct (int_of task_id) as [id|e];
     [|injection Hrun as <- <- <-; by rewrite lookup_nil in Hj]);
    destruct (find_task id (parse_tasks tasks))
      as [[i [tid0 desc lab state dep]]|] eqn:Hfind; try discriminate;
    try (injection Hrun as <- <- <-; by apply Hsame);
    apply find_task_Some in Hfind as (Hi & _ & _).
  - injection Hrun as <- <- <-.
    apply list_lookup_insert_Some in Hj as [(<- & <- & _)|(_ & Hj)];
      [|by apply Hsame].
    eexists. split_and!; [done|done|by left].
  - unfold bind in Hrun.
    destruct (match nd with Some _ => _ | None => _ end) as [dep'|e];
      [|discriminate].
    injection Hrun as <- <- <-.
    apply list_lookup_insert_Some in Hj as [(<- & <- & _)|(_ & Hj)];
      [|by apply Hsame].
    eexists. split_and!; [done|done|]. destruct ls as [ls|]; [right|left]; eauto.
  - destruct lab as [|l lab].
    + injection Hrun as <- <- <-. by apply Hsame.
    + unfold bind in Hrun.
      destruct (ask_index _ console) as [[n|]|e]; try discriminate.
      * injection Hrun as <- <- <-.
        apply list_lookup_insert_Some in Hj as [(<- & <- & _)|(_ & Hj)];
          [|by apply Hsame].
        eexists. split_and!; [done|done|]. left. apply sublist_delete.
      * injection Hrun as <- <- <-. by apply Hsame.
  - injection Hrun as <- <- <-.
    apply list_lookup_insert_Some in Hj as [(<- & <- & _)|(_ & Hj)];
      [|by apply Hsame].
    eexists. split_and!; [done|done|]. left. apply sublist_nil_l.
  - injection Hrun as <- <- <-.
    apply list_lookup_insert_Some in Hj as [(<- & <- & _)|(_ & Hj)];
      [|by apply Hsame].
    eexists. split_and!; [done|done|by left].
Qed.

(** C5, as the code has it.  No label of a parsed task is the empty
    string.  Every task that [modify], [add_options], [rmLabel],
    [clearLabel] or [rmDep] returns stands at the index of a parsed task of
    the same id, and its labels have no duplicate if those of that parsed
    task had none, and no empty string unless [add_options] was given one.
    Every task that [rm] returns is a parsed task.  [add] returns the
    labels it was given. *)
Theorem labels_after_operations :
  (∀ tasks t, t ∈ parse_tasks tasks → "" ∉ labels t)
  ∧ (∀ op tasks task_id console found out old j t',
       run op tasks task_id console = Return (found, out, old) →
       out !! j = Some t' →
       ∃ t, parse_tasks tasks !! j = Some t
            ∧ tid t' = tid t
            ∧ (NoDup (labels t) → NoDup (labels t'))
            ∧ ((∀ ls d, op = AddOptions (Some ls) d → "" ∉ ls) → "" ∉ labels t'))
  ∧ (∀ tasks task_id found out old t',
       rm tasks task_id = Return (found, out, old) →
       t' ∈ out → t' ∈ parse_tasks tasks)
  ∧ (∀ tasks details labels status console new_id d l line,
       add tasks details labels status console = Return (Some (new_id, d, l, line)) →
       l = default [] labels).
Proof.
  split_and!.
  - apply parse_tasks_labels.
  - intros op tasks task_id console found out old j t' Hrun Hj.
    destruct (run_labels _ _ _ _ _ _ _ _ _ Hrun Hj)
      as (t & Ht & Htid & [Hsub|(ls & d & -> & Hl)]);
      pose proof (list_elem_of_lookup_2 _ _ _ Ht) as Hin.
    + exists t. split_and!; [done|done| |].
      * intros Hnd. by eapply sublist_NoDup.
      * intros _ He. apply (parse_tasks_labels _ _ Hin).
        by eapply elem_of_sublist.
    + exists t. rewrite Hl. split_and!; [done|done|apply merge_labels_NoDup|].
      intros Hgiven [He|He]%merge_labels_elem_of.
      * exact (parse_tasks_labels _ _ Hin He).
      * exact (Hgiven ls d eq_refl He).
  - intros tasks task_id found out old t'. unfold rm.
    destruct (int_of task_id) as [id|e].
    + rewrite rm_filter_spec. intros [= _ <- _]. simpl.
      by intros [_ ?]%list_elem_of_filter.
    + by intros [= _ <- _].
  - intros tasks details labels0 status0 console new_id d l line H.
    by apply add_returns in H as (_ & _ & ?).
Qed.

Lemma labels_after_operations_witness :
  (∃ t, parse_tasks ["1;A;x,y;suspended;None"; "2;B;z,z;started;1"] !! 0%nat = Some t
        ∧ tid (Task 1 "A" ["x"; "y"; "w"] "suspended" None) = tid t
        ∧ (NoDup (labels t) → NoDup ["x"; "y"; "w"])
        ∧ ((∀ ls d, AddOptions (Some ["y"; "w"; "w"]) None = AddOptions (Some ls) d
                    → "" ∉ ls)
           → "" ∉ ["x"; "y"; "w"]))
  ∧ Task 2 "B" ["z"; "z"] "started" (Some 1)
    ∈ parse_tasks ["1;A;x,y;suspended;None"; "2;B;z,z;started;1"]
  ∧ "" ∉ ["x"; "y"].
Proof.
  destruct labels_after_operations as (Hparse & Hrun & Hrm & _). split_and!.
  - apply (Hrun (AddOptions (Some ["y"; "w"; "w"]) None)
             ["1;A;x,y;suspended;None"; "2;B;z,z;started;1"] (IdInt 1) [] true
             [Task 1 "A" ["x"; "y"; "w"] "suspended" None;
              Task 2 "B" ["z"; "z"] "started" (Some 1)]
             (Some (Task 1 "A" ["x"; "y"] "suspended" None))
             0%nat (Task 1 "A" ["x"; "y"; "w"] "suspended" None));
      by vm_compute.
  - apply (Hrm ["1;A;x,y;suspended;None"; "2;B;z,z;started;1"] (IdInt 1) true
             [Task 2 "B" ["z"; "z"] "started" (Some 1)]
             (Some (Task 1 "A" ["x"; "y"] "suspended" None)));
      [by vm_compute|by left].
  - apply (Hparse ["1;A;x,y;suspended;None"; "2;B;z,z;started;1"]
             (Task 1 "A" ["x"; "y"] "suspended" None)).
    vm_compute. by left.
Defined.

(** C5, as stated, fails already after parsing: a label written twice in
    the line is read twice.  And [add_options] appends an empty string that
    it is given. *)
Lemma parsed_labels_duplicate :
  parse_tasks ["1;a;x,x"] = [Task 1 "a" ["x"; "x"] "suspended" None]
  ∧ ¬ NoDup (labels (Task 1 "a" ["x"; "x"] "suspended" None))
  ∧ add_options ["1;a;x"] (IdInt 1) (Some [""]) None []
    = Return (true, [Task 1 "a" ["x"; ""] "suspended" None],
              Some (Task 1 "a" ["x"] "suspended" None)).
Proof.
  split_and!; [by vm_compute| |by vm_compute].
  simpl. intros [Hx _]%NoDup_cons. apply Hx. by left.
Qed.

(** * Further properties *)

(** ** What a parsed task looks like *)

Ltac by_bits c :=
  destruct c as [[] [] [] [] [] [] [] []]; try discriminate; try reflexivity.

Lemma rstrip_by_idem p s : rstrip_by p (rstrip_by p s) = rstrip_by p s.
Proof.
  induction s as [|c s IH]; simpl; [done|].
  destruct (p c && negb (nonempty (rstrip_by p s))) eqn:Hc; [done|].
  simpl. by rewrite IH, Hc.
Qed.

Lemma lstrip_by_head_not p s :
  match lstrip_by p s with
  | EmptyString => True
  | String c _ => p c = false
  end.
Proof.
  induction s as [|c s IH]; simpl; [done|].
  by destruct (p c) eqn:Hc; [|simpl].
Qed.

Lemma strip_idem s : strip (strip s) = strip s.
Proof.
  unfold strip. pose proof (lstrip_by_head_not isspace s) as Hhead.
  destruct (lstrip_by isspace s) as [|c u]; [done|].
  cbn [rstrip_by]. rewrite Hhead. cbn [andb].
  rewrite (lstrip_by_head _ _ _ Hhead).
  change (rstrip_by isspace (String c (rstrip_by isspace u)))
    with (if isspace c && negb (nonempty (rstrip_by isspace (rstrip_by isspace u)))
          then EmptyString
          else String c (rstrip_by isspace (rstrip_by isspace u))).
  by rewrite Hhead, rstrip_by_idem.
Qed.

Lemma char_in_lstrip_by c p s :
  char_in c s = false → char_in c (lstrip_by p s) = false.
Proof.
  induction s as [|x s IH]; simpl; [done|].
  intros [Hx Hs]%orb_false_iff. destruct (p x); [by apply IH|].
  simpl. by rewrite Hx, Hs.
Qed.

Lemma char_in_rstrip_by c p s :
  char_in c s = false → char_in c (rstrip_by p s) = false.
Proof.
  induction s as [|x s IH]; simpl; [done|].
  intros [Hx Hs]%orb_false_iff.
  destruct (p x && negb (nonempty (rstrip_by p s))); [done|].
  simpl. by rewrite Hx, IH.
Qed.

Lemma char_in_strip c s : char_in c s = false → char_in c (strip s) = false.
Proof. intros H. by apply char_in_rstrip_by, char_in_lstrip_by. Qed.

(** No field of [s.split(sep)] holds the separator, nor a character that
    [s] does not hold. *)
Lemma split_fields sep c s :
  (Ascii.eqb c sep = true ∨ char_in c s = false) →
  Forall (fun f => char_in c f = false) (split sep s).
Proof.
  induction s as [|x s IH]; simpl; intros Hc.
  - by constructor.
  - destruct (Ascii.eqb x sep) eqn:Hx.
    + constructor; [done|]. apply IH. destruct Hc as [?|Hc]; [by left|right].
      by apply orb_false_iff in Hc as [_ ?].
    + assert (Ascii.eqb x c = false ∧ (Ascii.eqb c sep = true ∨ char_in c s = false))
        as [Hxc Hrest].
      { destruct Hc as [Hc|Hc].
        - split; [|by left]. apply Ascii.eqb_eq in Hc as ->. done.
        - apply orb_false_iff in Hc as [? ?]. split; [done|by right]. }
      specialize (IH Hrest).
      destruct (split sep s) as [|f fs]; [by repeat constructor; simpl; rewrite Hxc|].
      apply Forall_cons in IH as [Hf Hfs].
      constructor; [|done]. simpl. by rewrite Hxc, Hf.
Qed.

Lemma item_elem_of parts i : (i < length parts)%nat → item parts i ∈ parts.
Proof. intros Hi. apply list_elem_of_In. by apply nth_In. Qed.

Lemma isdigit_char_not_int_space c :
  isdigit_char c = true → negb (int_space c) = true.
Proof. by_bits c. Qed.

(** A string of digits is never read as a negative number. *)
Lemma int_isdigit_nonneg s d : isdigit s = true → int s = Return d → 0 ≤ d.
Proof.
  unfold isdigit. intros [Hne Hall]%andb_true_iff. unfold int.
  rewrite (lstrip_by_none int_space), (rstrip_by_none int_space)
    by (eapply all_chars_impl; [apply isdigit_char_not_int_space|done]).
  destruct s as [|c s]; [done|]. simpl in Hall.
  apply andb_true_iff in Hall as [Hc _].
  assert (match String c s with
          | String "-"%char ds => option_map Z.opp (magnitude ds)
          | String "+"%char ds => magnitude ds
          | _ => magnitude (String c s)
          end = magnitude (String c s)) as ->.
  { revert Hc. clear. by_bits c. }
  unfold magnitude. destruct (digit_run (String c s)) as [u|]; [|done].
  simpl. intros [= <-]. lia.
Qed.

Lemma parse_labels_fields field :
  char_in ";" field = false →
  Forall (fun l => nonempty l = true ∧ char_in "," l = false
                   ∧ char_in ";" l = false ∧ strip l = l) (parse_labels field).
Proof.
  intros Hsemi. unfold parse_labels. apply Forall_forall.
  intros l Hl%list_elem_of_In. apply filter_In in Hl as [Hl Hne].
  apply list_elem_of_In, list_elem_of_fmap in Hl as (f & -> & Hf).
  pose proof (split_fields "," "," field (or_introl eq_refl)) as Hcomma.
  pose proof (split_fields "," ";" field (or_intror Hsemi)) as Hsc.
  rewrite Forall_forall in Hcomma, Hsc.
  split_and!; [done|by apply char_in_strip, Hcomma
              |by apply char_in_strip, Hsc|apply strip_idem].
Qed.

(** The shape of every task [parse_line] gives. *)
Lemma parse_line_fields line t :
  parse_line line = Some t →
  char_in ";" (description t) = false
  ∧ Forall (fun l => nonempty l = true ∧ char_in "," l = false
                     ∧ char_in ";" l = false ∧ strip l = l) (labels t)
  ∧ nonempty (status t) = true ∧ strip (status t) = status t
  ∧ char_in ";" (status t) = false
  ∧ ∀ d, dependence t = Some d → 0 ≤ d.
Proof.
  unfold parse_line.
  destruct (nonempty (strip line)); [|done].
  pose proof (split_fields ";" ";" (strip line) (or_introl eq_refl)) as Hparts.
  rewrite Forall_forall in Hparts.
  destruct (Nat.leb_spec 2 (length (split ";" (strip line)))) as [H2|]; [|done].
  set (parts := split ";" (strip line)) in *.
  unfold parse_parts, bind.
  match goal with
  | |- context [Task _ _ ?l ?s _] => set (labs := l); set (st := s)
  end.
  assert (char_in ";" (item parts 1) = false) as Hdesc
    by (apply Hparts, item_elem_of; lia).
  assert (Forall (fun l => nonempty l = true ∧ char_in "," l = false
                           ∧ char_in ";" l = false ∧ strip l = l) labs) as Hlabs.
  { subst labs. destruct (Nat.leb_spec 3 (length parts)); cbn [andb];
      [|by constructor].
    destruct (negb _); [|by constructor].
    apply parse_labels_fields, Hparts, item_elem_of. lia. }
  assert (nonempty st = true ∧ strip st = st ∧ char_in ";" st = false) as Hst.
  { subst st. destruct (Nat.leb_spec 4 (length parts)); cbn [andb]; [|done].
    destruct (nonempty (strip (item parts 3))) eqn:Hne; [|done].
    split_and!; [done|apply strip_idem|].
    apply char_in_strip, Hparts, item_elem_of. lia. }
  clearbody labs st.
  destruct (int (item parts 0)) as [n|]; [|done].
  destruct ((5 <=? length parts)%nat && isdigit (strip (item parts 4))) eqn:Hdig.
  - apply andb_true_iff in Hdig as [_ Hdig].
    destruct (int (strip (item parts 4))) as [d|] eqn:Hd; [|done].
    intros [= <-]. cbn [description labels status dependence].
    destruct Hst as (? & ? & ?). split_and!; try done.
    intros d' [= <-]. by eapply int_isdigit_nonneg.
  - intros [= <-]. cbn [description labels status dependence].
    destruct Hst as (? & ? & ?). by split_and!.
Qed.

Lemma parsed_fields_of_line tasks t :
  t ∈ parse_tasks tasks →
  char_in ";" (description t) = false
  ∧ Forall (fun l => nonempty l = true ∧ char_in "," l = false
                     ∧ char_in ";" l = false ∧ strip l = l) (labels t)
  ∧ nonempty (status t) = true ∧ strip (status t) = status t
  ∧ char_in ";" (status t) = false
  ∧ ∀ d, dependence t = Some d → 0 ≤ d.
Proof.
  rewrite parse_tasks_omap. intros (line & _ & Hline)%list_elem_of_omap.
  by apply (parse_line_fields line).
Qed.

(** X3.  Every task that [parse_tasks] returns has a description without
    [";"]; labels that are not empty, hold neither [","] nor [";"] and have
    no white space at either end; a status that is not empty, has no white
    space at either end and holds no [";"]; and a dependence that, when
    there is one, is not negative. *)
Theorem parsed_fields_normal tasks t :
  t ∈ parse_tasks tasks →
  char_in ";" (description t) = false
  ∧ Forall (fun l => nonempty l = true ∧ char_in "," l = false
                     ∧ char_in ";" l = false ∧ strip l = l) (labels t)
  ∧ nonempty (status t) = true ∧ strip (status t) = status t
  ∧ char_in ";" (status t) = false
  ∧ ∀ d, dependence t = Some d → 0 ≤ d.
Proof. apply parsed_fields_of_line. Qed.

Lemma parsed_fields_normal_witness :
  let t := Task 3 " a " ["x"; "y z"] "in progress" (Some 7) in
  char_in ";" (description t) = false
  ∧ Forall (fun l => nonempty l = true ∧ char_in "," l = false
                     ∧ char_in ";" l = false ∧ strip l = l) (labels t)
  ∧ nonempty (status t) = true ∧ strip (status t) = status t
  ∧ char_in ";" (status t) = false
  ∧ ∀ d, dependence t = Some d → 0 ≤ d.
Proof.
  intros t. apply (parsed_fields_normal ["  3; a ; x ,, y z ; in progress ; 7 ;extra"]).
  vm_compute. by left.
Defined.

(** ** Lines written in the format of [add], read back *)

Lemma decimal_isdigit_char c : isdecimal_char c = true → isdigit_char c = true.
Proof. by_bits c. Qed.

Lemma isdigit_str_of_int d : isdigit (str_of_int d) = (0 <=? d).
Proof.
  unfold str_of_int. destruct (Z.ltb_spec d 0) as [Hd|Hd].
  - destruct (Z.leb_spec 0 d); [lia|done].
  - destruct (Z.leb_spec 0 d); [|lia]. unfold isdigit.
    destruct (string_of_uint_head (N.to_uint (Z.to_N d))) as (c & r & Hs & _);
      [apply to_uint_nonnil|].
    rewrite (all_chars_impl _ _ _ decimal_isdigit_char (string_of_uint_decimal _)).
    by rewrite Hs.
Qed.

Lemma strip_str_of_int d : strip (str_of_int d) = str_of_int d.
Proof.
  unfold strip.
  rewrite lstrip_by_none, rstrip_by_none; [done|..];
    (eapply all_chars_impl; [apply in_int_str_not_space|apply str_of_int_chars]).
Qed.

(** What the parser reads in the dependence field that [add] writes: the
    id, unless it is negative. *)
Lemma dep_field_parses id_dep :
  (if isdigit (strip (dep_str id_dep))
   then let* d := int (strip (dep_str id_dep)) in Return (Some d)
   else Return None)
  = Return (match id_dep with
            | Some d => if 0 <=? d then Some d else None
            | None => None
            end).
Proof.
  destruct id_dep as [d|]; [|done]. cbn [dep_str].
  rewrite strip_str_of_int, isdigit_str_of_int, int_str_of_int.
  by destruct (0 <=? d).
Qed.

Lemma labels_field_parses (L : list str) :
  L = [] ∨ (L ≠ ["None"]
            ∧ Forall (fun l => nonempty l = true ∧ char_in "," l = false
                               ∧ char_in ";" l = false ∧ strip l = l) L) →
  char_in ";" (labels_str L) = false
  ∧ (if negb (labels_str L =? "None")%string
     then parse_labels (labels_str L) else []) = L.
Proof.
  intros [->|[Hnone HL]]; [done|].
  destruct (decide (L = [])) as [->|Hne]; [done|].
  assert (Forall (fun x => char_in "," x = false) L) as Hcomma
    by (eapply Forall_impl; [exact HL|]; by intros x (_ & ? & _)).
  assert (Forall (fun x => char_in ";" x = false) L) as Hsemi
    by (eapply Forall_impl; [exact HL|]; by intros x (_ & _ & ? & _)).
  destruct (labels_str_join L Hne Hnone Hcomma) as [-> ->]. cbn [negb].
  split; [by apply char_in_join|].
  apply parse_labels_join; [done|].
  eapply Forall_impl; [exact HL|]. by intros x (? & ? & _ & ?).
Qed.

(** The task that [parse_tasks] reads in a line of [task_line]. *)
Lemma task_line_parses new_id details L status id_dep :
  L = [] ∨ (L ≠ ["None"]
            ∧ Forall (fun l => nonempty l = true ∧ char_in "," l = false
                               ∧ char_in ";" l = false ∧ strip l = l) L) →
  char_in ";" details = false →
  char_in ";" status = false →
  parse_line (task_line new_id details L status id_dep)
  = Some (Task new_id details L
            (if nonempty (strip status) then strip status else "suspended")
            (match id_dep with
             | Some d => if 0 <=? d then Some d else None
             | None => None
             end)).
Proof.
  intros HL Hdet Hst.
  destruct (labels_field_parses L HL) as [Hlsemi Hlabs].
  destruct (dep_str_chars id_dep) as (_ & Hdsemi & _).
  unfold parse_line. rewrite strip_task_line.
  assert (∀ x, nonempty (str_of_int new_id ++ x) = true) as ->
    by (intros x; by destruct (str_of_int_head new_id) as (c & r & -> & _)).
  assert (char_in ";" (str_of_int new_id) = false) as Hidsemi.
  { apply char_in_all_chars.
    eapply all_chars_impl; [apply in_int_str_not_semicolon|apply str_of_int_chars]. }
  rewrite (split_field _ (str_of_int new_id)), (split_field _ details),
    (split_field _ (labels_str L)), (split_field _ status),
    (split_without _ (dep_str id_dep)) by done.
  cbn [length Nat.leb]. unfold parse_parts, item. cbn [nth length Nat.leb andb].
  rewrite int_str_of_int. cbn [bind]. rewrite dep_field_parses. cbn [bind].
  by rewrite Hlabs.
Qed.

(** X4.  A parsed task, written as a line in the format of [add] and
    parsed again, is the same task, unless its labels are the single
    label ["None"]. *)
Theorem parsed_task_line_round_trip tasks t :
  t ∈ parse_tasks tasks →
  labels t ≠ ["None"] →
  parse_tasks [task_line (tid t) (description t) (labels t) (status t) (dependence t)]
  = [t].
Proof.
  intros Ht Hnone.
  destruct (parsed_fields_of_line tasks t Ht) as (Hd & Hl & Hne & Hs & Hsemi & Hdep).
  rewrite parse_tasks_omap. cbn [omap list_omap].
  rewrite task_line_parses; [|by right|done|done].
  rewrite Hs, Hne. destruct t as [n de la st dep]. simpl in *.
  destruct dep as [d|]; [|done].
  destruct (Z.leb_spec 0 d) as [|Hlt]; [done|]. specialize (Hdep d eq_refl). lia.
Qed.

Lemma parsed_task_line_round_trip_witness :
  parse_tasks [task_line 3 " a " ["x"; "y z"] "in progress" (Some 7)]
  = [Task 3 " a " ["x"; "y z"] "in progress" (Some 7)].
Proof.
  apply (parsed_task_line_round_trip
           ["  3; a ; x ,, y z ; in progress ; 7 ;extra"]
           (Task 3 " a " ["x"; "y z"] "in progress" (Some 7))).
  - vm_compute. by left.
  - done.
Defined.

(** ** What [add] returns *)

Lemma valid_status_stripped st :
  st ∈ valid_statuses →
  (if nonempty (strip st) then strip st else "suspended") = st
  ∧ char_in ";" st = false.
Proof.
  unfold valid_statuses. rewrite !elem_of_cons, elem_of_nil.
  by intros [->|[->|[->|[->|[]]]]].
Qed.

Lemma coerced_status_valid status :
  (if negb (str_in status valid_statuses) then "suspended" else status)
  ∈ valid_statuses.
Proof.
  destruct (str_in status valid_statuses) eqn:Hin; simpl.
  - by apply str_in_elem_of.
  - unfold valid_statuses. rewrite !elem_of_cons. tauto.
Qed.

(** The dependence [add] ends on: an id of the list; and a status started
    or completed is kept only when the first task of that id is completed. *)
Lemma ask_dependence_spec parsed st console d st' :
  ask_dependence parsed st console = Return (d, st') →
  d ∈ map tid parsed
  ∧ (st' = st ∨ st' = "suspended")
  ∧ ((st' = "started" ∨ st' = "completed") →
     ∃ j p, find_task d parsed = Some (j, p) ∧ status p = "completed").
Proof.
  induction console as [|[answer|] console IH]; cbn [ask_dependence];
    [done| |done].
  destruct (int answer) as [id_dep|]; [|done].
  case_bool_decide as Hin; [|done].
  destruct ((st =? "started")%string || (st =? "completed")%string) eqn:Hst.
  - destruct (find_task id_dep parsed) as [[j [? ? ? pstate ?]]|] eqn:Hfind.
    + destruct (pstate =? "completed")%string eqn:Hp; cbn [negb];
        intros [= <- <-].
      * apply String.eqb_eq in Hp as ->. split_and!; [done|by left|]. eauto.
      * split_and!; [done|by right|]. by intros [|].
    + change ("suspended" =? "completed")%string with false. cbn [negb].
      intros [= <- <-]. split_and!; [done|by right|]. by intros [|].
  - intros [= <- <-]. split_and!; [done|by left|].
    apply orb_false_iff in Hst as [H1 H2].
    apply String.eqb_neq in H1, H2. by intros [|].
Qed.

Lemma ask_yes_no_raises console e :
  ask_yes_no console = Raise e →
  (e = EOFError ∧ CtrlC ∉ console) ∨ (e = KeyboardInterrupt ∧ CtrlC ∈ console).
Proof.
  induction console as [|[answer|] console IH]; cbn [ask_yes_no].
  - intros [= <-]. left. split; [done|apply not_elem_of_nil].
  - destruct (str_in (lower answer) _); [done|].
    intros [(-> & Hc)|(-> & Hc)]%IH.
    + left. split; [done|]. by apply not_elem_of_cons.
    + right. split; [done|]. by right.
  - intros [= <-]. right. split; [done|]. by left.
Qed.


Lemma ask_dependence_raises parsed st console e :
  ask_dependence parsed st console = Raise e →
  (e = EOFError ∧ CtrlC ∉ console) ∨ (e = KeyboardInterrupt ∧ CtrlC ∈ console).
Proof.
  induction console as [|[answer|] console IH]; cbn [ask_dependence].
  - intros [= <-]. left. split; [done|apply not_elem_of_nil].
  - assert (ask_dependence parsed st console = Raise e →
            e = EOFError ∧ CtrlC ∉ Typed answer :: console
            ∨ e = KeyboardInterrupt ∧ CtrlC ∈ Typed answer :: console) as Hrec.
    { intros [(-> & Hc)|(-> & Hc)]%IH.
      - left. split; [done|]. by apply not_elem_of_cons.
      - right. split; [done|]. by right. }
    destruct (int answer) as [id_dep|]; [|done].
    case_bool_decide; [|done].
    destruct ((st =? "started")%string || (st =? "completed")%string); [|done].
    by destruct (negb _).
  - intros [= <-]. right. split; [done|]. by left.
Qed.

(** The line of [add], and what it was made of. *)
Lemma add_line tasks details labels requested console new_id d l line :
  add tasks details labels requested console = Return (Some (new_id, d, l, line)) →
  ∃ st id_dep,
    line = task_line new_id details (default [] labels) st id_dep
    ∧ st ∈ valid_statuses
    ∧ (st = requested ∨ st = "suspended")
    ∧ match id_dep with
      | None => True
      | Some dd =>
          dd ∈ map tid (parse_tasks tasks)
          ∧ ((st = "started" ∨ st = "completed") →
             ∃ j p, find_task dd (parse_tasks tasks) = Some (j, p)
                    ∧ status p = "completed")
      end.
Proof.
  unfold add.
  pose proof (coerced_status_valid requested) as Hvalid.
  assert ((if negb (str_in requested valid_statuses) then "suspended" else requested)
          = requested
          ∨ (if negb (str_in requested valid_statuses) then "suspended" else requested)
            = "suspended") as Hco
    by (destruct (negb _); auto).
  set (st0 := if negb (str_in requested valid_statuses) then "suspended"
              else requested) in *.
  clearbody st0.
  destruct (parse_tasks tasks) as [|t0 rest] eqn:Hp.
  - unfold bind.
    destruct (format_task_line _ _ _ _ _) as [ln|] eqn:Hf; [|done].
    intros [= <- <- <- <-]. apply format_task_line_Return in Hf as [-> _].
    exists st0, None.
    split_and!; try done; by destruct labels.
  - unfold bind.
    destruct (ask_yes_no console) as [[answer console']|[]]; try done.
    destruct (str_in answer ["oui"; "o"]).
    + destruct (ask_dependence (t0 :: rest) st0 console')
        as [[dd st]|[]] eqn:Hask; try done.
      destruct (format_task_line _ _ _ _ _) as [ln|] eqn:Hf; [|done].
      intros [= <- <- <- <-]. apply format_task_line_Return in Hf as [-> _].
      apply ask_dependence_spec in Hask as (Hin & Hst & Hgate).
      exists st, (Some dd).
      assert (st ∈ valid_statuses).
      { destruct Hst as [->| ->]; [done|].
        unfold valid_statuses. rewrite !elem_of_cons. tauto. }
      assert (st = requested ∨ st = "suspended")
        by (destruct Hst as [->| ->]; [done|by right]).
      split_and!; try done; by destruct labels.
    + destruct (format_task_line _ _ _ _ _) as [ln|] eqn:Hf; [|done].
      intros [= <- <- <- <-]. apply format_task_line_Return in Hf as [-> _].
      exists st0, None.
      split_and!; try done; by destruct labels.
Qed.

Lemma ask_yes_no_rest_interrupt console answer rest :
  ask_yes_no console = Return (answer, rest) →
  CtrlC ∈ console ↔ CtrlC ∈ rest.
Proof.
  induction console as [|[a|] console IH]; cbn [ask_yes_no]; [done| |done].
  destruct (str_in (lower a) _).
  - intros [= _ <-]. rewrite elem_of_cons.
    split; [intros [?|?]; [discriminate|done]|by right].
  - intros H. rewrite elem_of_cons, (IH H).
    split; [intros [?|?]; [discriminate|done]|by right].
Qed.

(** A line that starts with [str(n)] and a [";"] is skipped or read as a
    task of id [n], whatever follows. *)
Lemma parse_line_first_field n x t :
  parse_line (str_of_int n ++ String ";" x) = Some t → tid t = n.
Proof.
  unfold parse_line, strip.
  destruct (str_of_int_head n) as (c & r & Hs & Hc).
  apply in_int_str_not_space, negb_true_iff in Hc.
  assert (lstrip_by isspace (str_of_int n ++ String ";" x)
          = str_of_int n ++ String ";" x) as ->
    by (rewrite Hs; by apply lstrip_by_head).
  assert (rstrip_by isspace (String ";" x) = String ";" (rstrip_by isspace x))
    as Hsemi by done.
  rewrite rstrip_by_app, Hsemi by (by rewrite Hsemi).
  destruct (nonempty _); [|done].
  rewrite split_app.
  2:{ apply char_in_all_chars.
      eapply all_chars_impl; [apply in_int_str_not_semicolon|apply str_of_int_chars]. }
  pose proof (split_nonempty ";" (rstrip_by isspace x)) as Hne.
  destruct (split ";" (rstrip_by isspace x)) as [|f fs]; [done|].
  cbn [length Nat.leb]. unfold parse_parts, item at 1. cbn [nth].
  rewrite int_str_of_int. unfold bind.
  destruct (if _ && _ then _ else _); [|done]. by intros [= <-].
Qed.

Lemma task_line_first_field new_id details L st id_dep t :
  parse_line (task_line new_id details L st id_dep) = Some t → tid t = new_id.
Proof. apply parse_line_first_field. Qed.

(** X5.  When the description holds no [";"] and the labels are none, or
    are labels that are not empty, hold neither [","] nor [";"], have no
    white space at either end and are not the single label ["None"], the
    line [add] returns, put after the lines it was given, parses to the
    tasks there were and one more task: the new id, the description, the
    labels, and a valid status that is the one asked for or suspended. *)
Theorem add_line_parses_back tasks details labels requested console new_id d l line :
  add tasks details labels requested console = Return (Some (new_id, d, l, line)) →
  char_in ";" details = false →
  (default [] labels = []
   ∨ (default [] labels ≠ ["None"]
      ∧ Forall (fun l => nonempty l = true ∧ char_in "," l = false
                         ∧ char_in ";" l = false ∧ strip l = l)
          (default [] labels))) →
  ∃ st dep,
    parse_tasks (tasks ++ [line])
    = (parse_tasks tasks ++ [Task new_id details (default [] labels) st dep])%list
    ∧ st ∈ valid_statuses
    ∧ (st = requested ∨ st = "suspended").
Proof.
  intros (st & id_dep & -> & Hst & Hreq & _)%add_line Hdet HL.
  destruct (valid_status_stripped st Hst) as [Hstrip Hsemi].
  eexists st, _. split_and!; [|done|done].
  rewrite !parse_tasks_omap, omap_app. cbn [omap list_omap].
  rewrite task_line_parses by done. by rewrite Hstrip.
Qed.

Lemma add_line_parses_back_witness :
  ∃ st dep,
    parse_tasks (["1;A;None;started;None"]
                 ++ [task_line 2 "B" ["x"; "y"] "suspended" (Some 1)])
    = (parse_tasks ["1;A;None;started;None"]
       ++ [Task 2 "B" ["x"; "y"] st dep])%list
    ∧ st ∈ valid_statuses
    ∧ (st = "started" ∨ st = "suspended").
Proof.
  apply (add_line_parses_back ["1;A;None;started;None"] "B" (Some ["x"; "y"])
           "started" [Typed "O"; Typed "1"] 2 "B" ["x"; "y"]).
  - by vm_compute.
  - done.
  - right. split; [done|]. by repeat constructor.
Defined.

(** X6.  Under the same conditions, the task read in the line of [add]
    has a status started or completed and a dependence only when the first
    task of that id, among the tasks [add] was given, is completed. *)
Theorem add_respects_dependence_gate tasks details labels requested console
    new_id d l line t' dd :
  add tasks details labels requested console = Return (Some (new_id, d, l, line)) →
  char_in ";" details = false →
  (default [] labels = []
   ∨ (default [] labels ≠ ["None"]
      ∧ Forall (fun l => nonempty l = true ∧ char_in "," l = false
                         ∧ char_in ";" l = false ∧ strip l = l)
          (default [] labels))) →
  t' ∈ parse_tasks [line] →
  dependence t' = Some dd →
  status t' = "started" ∨ status t' = "completed" →
  ∃ j p, find_task dd (parse_tasks tasks) = Some (j, p) ∧ status p = "completed".
Proof.
  intros (st & id_dep & -> & Hst & _ & Hgate)%add_line Hdet HL.
  destruct (valid_status_stripped st Hst) as [Hstrip Hsemi].
  rewrite parse_tasks_omap. cbn [omap list_omap].
  rewrite task_line_parses by done. rewrite Hstrip.
  intros ->%list_elem_of_singleton. cbn [dependence status].
  destruct id_dep as [d0|]; [|done].
  destruct (0 <=? d0); [|done]. intros [= <-] Hs.
  destruct Hgate as [_ Hgate]. by apply Hgate.
Qed.

Lemma add_respects_dependence_gate_witness :
  ∃ j p,
    find_task 1 (parse_tasks ["1;A;None;completed;None"; "2;B;None;started;None"])
    = Some (j, p)
    ∧ status p = "completed".
Proof.
  apply (add_respects_dependence_gate
           ["1;A;None;completed;None"; "2;B;None;started;None"] "C" None
           "started" [Typed "oui"; Typed "1"] 3 "C" []
           (task_line 3 "C" [] "started" (Some 1))
           (Task 3 "C" [] "started" (Some 1)) 1).
  - by vm_compute.
  - done.
  - by left.
  - vm_compute. by left.
  - done.
  - by left.
Defined.

(** X7.  If the ids of the parsed tasks are pairwise different, they still
    are once the line [add] returns is put after the lines: whatever the
    description and the labels, the line is read as a task of the new id,
    or skipped. *)
Theorem add_keeps_ids_unique tasks details labels requested console new_id d l line :
  NoDup (map tid (parse_tasks tasks)) →
  add tasks details labels requested console = Return (Some (new_id, d, l, line)) →
  NoDup (map tid (parse_tasks (tasks ++ [line]))).
Proof.
  intros Hnd Hadd.
  assert (∀ u, u ∈ parse_tasks tasks → tid u < new_id) as Hlt.
  { apply add_returns in Hadd as (Hid & _ & _).
    destruct (parse_tasks tasks) as [|t0 rest] eqn:Hp.
    - by intros u ?%elem_of_nil.
    - destruct (max_id_spec (t0 :: rest)) as (t & Ht & Hmax & Hall); [done|].
      intros u Hu. specialize (Hall u Hu). lia. }
  apply add_line in Hadd as (st & id_dep & -> & _).
  rewrite !parse_tasks_omap, omap_app, map_app. cbn [omap list_omap].
  destruct (parse_line (task_line _ _ _ _ _)) as [t|] eqn:Hline.
  - apply task_line_first_field in Hline. cbn [map].
    apply NoDup_app. split_and!; [by rewrite <- parse_tasks_omap| |apply NoDup_singleton].
    intros x (u & -> & Hu)%list_elem_of_fmap Hx%list_elem_of_singleton.
    rewrite <- parse_tasks_omap in Hu. specialize (Hlt u Hu). lia.
  - simpl. rewrite app_nil_r. by rewrite <- parse_tasks_omap.
Qed.

Lemma add_keeps_ids_unique_witness :
  NoDup (map tid (parse_tasks (["4;A"; "2;B"] ++ [task_line 5 "a;b;c" [";"] "suspended" None]))).
Proof.
  apply (add_keeps_ids_unique ["4;A"; "2;B"] "a;b;c" (Some [";"]) "lost" [Typed "Non"]
           5 "a;b;c" [";"]).
  - apply (bool_decide_unpack _). by vm_compute.
  - by vm_compute.
Defined.

(** X8.  [add] raises nothing but [EOFError], and that only on a console
    without interrupt, and [ValueError], and that only when the new id, or
    the id chosen as dependence, has more digits than the limit; it
    returns the cancelled result only on a console with an interrupt. *)
Theorem add_cancelled_or_exhausted tasks details labels requested console :
  let new_id := match parse_tasks tasks with
                | [] => 1
                | _ => max_id (parse_tasks tasks) + 1
                end in
  (∀ e, add tasks details labels requested console = Raise e →
        (e = EOFError ∧ CtrlC ∉ console)
        ∨ (e = ValueError
           ∧ ∃ n, (max_str_digits < int_digits n)%nat
                  ∧ (n = new_id ∨ n ∈ map tid (parse_tasks tasks))))
  ∧ (add tasks details labels requested console = Return None → CtrlC ∈ console).
Proof.
  intros new_id. subst new_id. unfold add.
  set (st0 := if negb (str_in requested valid_statuses) then "suspended"
              else requested).
  clearbody st0.
  destruct (parse_tasks tasks) as [|t0 rest].
  - unfold bind.
    destruct (format_task_line _ _ _ _ _) as [ln|e0] eqn:Hf; [by split|].
    apply format_task_line_raises in Hf as [-> [Hd|(d & [=] & _)]].
    split; [|done]. intros e [= <-]. right. split; [done|]. exists 1. by auto.
  - unfold bind.
    destruct (ask_yes_no console) as [[answer console']|e0] eqn:Hyn.
    + pose proof (ask_yes_no_rest_interrupt _ _ _ Hyn) as Hrest.
      destruct (str_in answer ["oui"; "o"]).
      * destruct (ask_dependence (t0 :: rest) st0 console') as [[dd st]|e1] eqn:Hask.
        -- destruct (format_task_line _ _ _ _ _) as [ln|e2] eqn:Hf; [by split|].
           apply ask_dependence_spec in Hask as (Hin & _ & _).
           apply format_task_line_raises in Hf as [-> [Hd|(d & [= <-] & Hd)]];
             (split; [|done]); intros e [= <-]; right; (split; [done|]).
           ++ eexists. split; [exact Hd|by left].
           ++ exists dd. split; [done|by right].
        -- apply ask_dependence_raises in Hask as [(-> & Hc)|(-> & Hc)].
           ++ split; [|done]. intros e [= <-]. left. split; [done|].
              by rewrite Hrest.
           ++ split; [done|]. intros _. by rewrite Hrest.
      * destruct (format_task_line _ _ _ _ _) as [ln|e2] eqn:Hf; [by split|].
        apply format_task_line_raises in Hf as [-> [Hd|(d & [=] & _)]].
        split; [|done]. intros e [= <-]. right. split; [done|].
        eexists. split; [exact Hd|by left].
    + apply ask_yes_no_raises in Hyn as [(-> & Hc)|(-> & Hc)].
      * split; [|done]. intros e [= <-]. by left.
      * split; [done|]. done.
Qed.

Lemma add_cancelled_or_exhausted_witness :
  ((EOFError = EOFError ∧ CtrlC ∉ [Typed "oui"; Typed "7"])
   ∨ (EOFError = ValueError
      ∧ ∃ n, (max_str_digits < int_digits n)%nat
             ∧ (n = max_id (parse_tasks ["1;A"]) + 1
                ∨ n ∈ map tid (parse_tasks ["1;A"]))))
  ∧ CtrlC ∈ [Typed "?"; Typed "o"; Typed "x"; CtrlC; Typed "1"].
Proof.
  split.
  - apply (proj1 (add_cancelled_or_exhausted ["1;A"] "B" None "started"
                    [Typed "oui"; Typed "7"])).
    by vm_compute.
  - apply (proj2 (add_cancelled_or_exhausted ["1;A"] "B" None "started"
                    [Typed "?"; Typed "o"; Typed "x"; CtrlC; Typed "1"])).
    by vm_compute.
Defined.

(** X9.  Without a question (no parsed task) or with the answer n or non,
    in any case of the letters, and when the next id has no more digits
    than the limit, [add] returns the next id, the description and the
    labels as given, and the line of these with no dependence and with the
    status asked for when it is one of the four, suspended otherwise.  An
    answer that is none of o, n, oui, non is asked again. *)
Theorem add_without_dependence tasks details labels requested console :
  let new_id := match parse_tasks tasks with
                | [] => 1
                | _ => max_id (parse_tasks tasks) + 1
                end in
  let st := if str_in requested valid_statuses then requested else "suspended" in
  (parse_tasks tasks = []
   ∨ (∃ answer rest, console = Typed answer :: rest
                     ∧ (lower answer = "n" ∨ lower answer = "non")) →
   (int_digits new_id ≤ max_str_digits)%nat →
   add tasks details labels requested console
   = Return (Some (new_id, details, default [] labels,
                   task_line new_id details (default [] labels) st None)))
  ∧ (∀ answer, parse_tasks tasks ≠ [] →
       str_in (lower answer) ["o"; "n"; "oui"; "non"] = false →
       add tasks details labels requested (Typed answer :: console)
       = add tasks details labels requested console).
Proof.
  intros new_id st. subst new_id st. unfold add. split.
  - intros [Hempty|(answer & rest & -> & Hans)] Hdigits.
    + rewrite Hempty in *. rewrite format_task_line_within by done.
      by destruct labels, (str_in requested valid_statuses).
    + destruct (parse_tasks tasks) as [|t0 ts].
      { rewrite format_task_line_within by done.
        by destruct labels, (str_in requested valid_statuses). }
      cbn [ask_yes_no].
      assert (str_in (lower answer) ["o"; "n"; "oui"; "non"] = true
              ∧ str_in (lower answer) ["oui"; "o"] = false) as [-> Hno]
        by (destruct Hans as [-> | ->]; done).
      cbn [bind]. rewrite Hno. rewrite format_task_line_within by done.
      by destruct labels, (str_in requested valid_statuses).
  - intros answer Hne Hbad. destruct (parse_tasks tasks) as [|t0 ts]; [done|].
    cbn [ask_yes_no]. by rewrite Hbad.
Qed.

Lemma add_without_dependence_witness :
  add ["3;A"] "B" (Some ["x"]) "done" [Typed "NON"; CtrlC]
  = Return (Some (4, "B", ["x"], task_line 4 "B" ["x"] "suspended" None))
  ∧ add ["3;A"] "B" None "started" [Typed "yes"; Typed "n"]
    = add ["3;A"] "B" None "started" [Typed "n"].
Proof.
  split.
  - apply (proj1 (add_without_dependence ["3;A"] "B" (Some ["x"]) "done"
                    [Typed "NON"; CtrlC])).
    + right. exists "NON", [CtrlC]. split; [done|by right].
    + apply Nat.leb_le. by vm_compute.
  - apply (proj2 (add_without_dependence ["3;A"] "B" None "started" [Typed "n"])).
    + by vm_compute.
    + done.
Defined.

(** ** Ids that cannot be read, ids that no task has *)

Lemma filter_all {A} (P : A → Prop) `{!∀ x, Decision (P x)} (l : list A) :
  (∀ x, x ∈ l → P x) → filter P l = l.
Proof.
  induction l as [|x l IH]; intros Hall; [done|].
  rewrite filter_cons_True by (apply Hall; by left).
  f_equal. apply IH. intros y Hy. apply Hall. by right.
Qed.

Lemma filter_none {A} (P : A → Prop) `{!∀ x, Decision (P x)} (l : list A) :
  (∀ x, x ∈ l → ¬ P x) → filter P l = [].
Proof.
  induction l as [|x l IH]; intros Hall; [done|].
  rewrite filter_cons_False by (apply Hall; by left).
  apply IH. intros y Hy. apply Hall. by right.
Qed.

(** X10.  With an id that [int] rejects, [modify], [add_options],
    [rmLabel], [clearLabel] and [rmDep] return [(False, [], None)], an
    empty list and not the parsed one, and [rm] returns
    [(False, parse_tasks(tasks), None)], whatever the console holds. *)
Theorem unreadable_id_outcome op tasks task_id console e :
  int_of task_id = Raise e →
  run op tasks task_id console = Return (false, [], None)
  ∧ rm tasks task_id = Return (false, parse_tasks tasks, None).
Proof.
  intros Hid. split.
  - destruct op; simpl;
      unfold modify, add_options, rmLabel, clearLabel, rmDep; by rewrite Hid.
  - unfold rm. by rewrite Hid.
Qed.

Lemma unreadable_id_outcome_witness :
  run RmLabel ["1;A;x;started;None"] (IdStr "1a") [] = Return (false, [], None)
  ∧ rm ["1;A;x;started;None"] (IdStr "1a")
    = Return (false, parse_tasks ["1;A;x;started;None"], None).
Proof.
  by apply (unreadable_id_outcome RmLabel ["1;A;x;started;None"] (IdStr "1a") []
              ValueError).
Defined.

(** X11.  With an id that no parsed task has, [modify], [add_options] and
    [rm] return [(False, parsed_tasks, None)]: the parsed list as it is. *)
Theorem absent_id_found_false tasks task_id id :
  int_of task_id = Return id →
  id ∉ map tid (parse_tasks tasks) →
  (∀ new_details new_status,
     modify tasks task_id new_details new_status
     = Return (false, parse_tasks tasks, None))
  ∧ (∀ labels id_dep console,
       add_options tasks task_id labels id_dep console
       = Return (false, parse_tasks tasks, None))
  ∧ rm tasks task_id = Return (false, parse_tasks tasks, None).
Proof.
  intros Hid Habs. pose proof (proj2 (find_task_None _ _) Habs) as Hfind.
  split_and!.
  - intros. unfold modify. by rewrite Hid, Hfind.
  - intros. unfold add_options. by rewrite Hid, Hfind.
  - unfold rm. rewrite Hid, rm_filter_spec.
    assert (∀ t, t ∈ parse_tasks tasks → tid t ≠ id) as Hall.
    { intros t Ht Heq. apply Habs, list_elem_of_fmap. by exists t. }
    rewrite filter_all by done.
    rewrite (filter_none (fun t => tid t = id)) by (intros t Ht; by apply Hall).
    simpl. by rewrite Nat.ltb_irrefl.
Qed.

Lemma absent_id_found_false_witness :
  rm ["1;A"; "3;B"] (IdStr " 2 ") = Return (false, parse_tasks ["1;A"; "3;B"], None).
Proof.
  apply (absent_id_found_false ["1;A"; "3;B"] (IdStr " 2 ") 2); [done|].
  vm_compute. intros H.
  repeat (apply elem_of_cons in H as [H|H]; [done|]). by apply elem_of_nil in H.
Defined.

(** X12.  With an id that a parsed task has, [rm] reports [found = True]
    and returns the parsed tasks of the other ids, in their order: every
    task of the id is removed, also when several have it, and [old_task] is
    the last of them. *)
Theorem rm_removes_every_task_of_id tasks task_id id :
  int_of task_id = Return id →
  id ∈ map tid (parse_tasks tasks) →
  ∃ old,
    rm tasks task_id
    = Return (true, filter (fun t => tid t ≠ id) (parse_tasks tasks), Some old)
    ∧ last (filter (fun t => tid t = id) (parse_tasks tasks)) = Some old.
Proof.
  intros Hid (t & -> & Ht)%list_elem_of_fmap.
  unfold rm. rewrite Hid, rm_filter_spec. simpl.
  assert (length (filter (fun u => tid u ≠ tid t) (parse_tasks tasks))
          < length (parse_tasks tasks))%nat as Hlt
    by (eapply length_filter_lt; [done|]; by intros []).
  apply Nat.ltb_lt in Hlt. rewrite Hlt.
  destruct (last (filter (fun u => tid u = tid t) (parse_tasks tasks)))
    as [old|] eqn:Hlast; [by eexists|].
  apply last_None in Hlast.
  assert (t ∈ filter (fun u => tid u = tid t) (parse_tasks tasks)) as Hin
    by (by apply list_elem_of_filter).
  rewrite Hlast in Hin. by apply elem_of_nil in Hin.
Qed.

Lemma rm_removes_every_task_of_id_witness :
  ∃ old,
    rm ["2;first"; "1;A"; "2;second"; "3;B;None;started;2"] (IdInt 2)
    = Return (true,
              filter (fun t => tid t ≠ 2)
                (parse_tasks ["2;first"; "1;A"; "2;second"; "3;B;None;started;2"]),
              Some old)
    ∧ last (filter (fun t => tid t = 2)
              (parse_tasks ["2;first"; "1;A"; "2;second"; "3;B;None;started;2"]))
      = Some old.
Proof.
  apply (rm_removes_every_task_of_id _ (IdInt 2) 2); [done|].
  vm_compute. by left.
Defined.

(** ** The operations in place, on the task they find *)

(** X13.  When [modify], [add_options], [rmLabel], [clearLabel] or [rmDep]
    reports [found = True], [old_task] is the first parsed task of the id,
    as parsed; the returned list differs from the parsed one at the index
    of that task at most, so a later task of the same id is not changed;
    and the task at that index keeps the id. *)
Theorem mutation_first_match_only op tasks task_id console id out old :
  int_of task_id = Return id →
  run op tasks task_id console = Return (true, out, old) →
  ∃ i t,
    find_task id (parse_tasks tasks) = Some (i, t)
    ∧ old = Some t
    ∧ (∀ j, j ≠ i → out !! j = parse_tasks tasks !! j)
    ∧ tid <$> out !! i = Some id.
Proof.
  intros Hid Hrun.
  destruct op as [nd ns|ls nd| | |]; simpl in Hrun;
    [unfold modify in Hrun|unfold add_options in Hrun|unfold rmLabel in Hrun
    |unfold clearLabel in Hrun|unfold rmDep in Hrun];
    rewrite Hid in Hrun;
    destruct (find_task id (parse_tasks tasks))
      as [[i [tid0 desc lab state dep]]|] eqn:Hfind; try discriminate;
    pose proof (find_task_Some _ _ _ _ Hfind) as (Hi & Htid & Hlen);
    simpl in Htid; exists i, (Task tid0 desc lab state dep).
  - injection Hrun as <- <-. split_and!; [done|done| |].
    + intros j Hj. by rewrite list_lookup_insert_ne.
    + rewrite list_lookup_insert_eq by done. simpl. by rewrite Htid.
  - unfold bind in Hrun.
    destruct (match nd with Some _ => _ | None => _ end) as [dep'|e];
      [|discriminate].
    injection Hrun as <- <-. split_and!; [done|done| |].
    + intros j Hj. by rewrite list_lookup_insert_ne.
    + rewrite list_lookup_insert_eq by done. simpl. by rewrite Htid.
  - destruct lab as [|l lab].
    + injection Hrun as <- <-. split_and!; [done|done|done|].
      rewrite Hi. simpl. by rewrite Htid.
    + unfold bind in Hrun.
      destruct (ask_index _ console) as [[n|]|e]; try discriminate.
      injection Hrun as <- <-. split_and!; [done|done| |].
      * intros j Hj. by rewrite list_lookup_insert_ne.
      * rewrite list_lookup_insert_eq by done. simpl. by rewrite Htid.
  - injection Hrun as <- <-. split_and!; [done|done| |].
    + intros j Hj. by rewrite list_lookup_insert_ne.
    + rewrite list_lookup_insert_eq by done. simpl. by rewrite Htid.
  - injection Hrun as <- <-. split_and!; [done|done| |].
    + intros j Hj. by rewrite list_lookup_insert_ne.
    + rewrite list_lookup_insert_eq by done. simpl. by rewrite Htid.
Qed.

Lemma mutation_first_match_only_witness :
  ∃ i t,
    find_task 2 (parse_tasks ["2;first;a,b"; "1;A"; "2;second;c"]) = Some (i, t)
    ∧ Some (Task 2 "first" ["a"; "b"] "suspended" None) = Some t
    ∧ (∀ j, j ≠ i →
         [Task 2 "first" [] "suspended" None; Task 1 "A" [] "suspended" None;
          Task 2 "second" ["c"] "suspended" None] !! j
         = parse_tasks ["2;first;a,b"; "1;A"; "2;second;c"] !! j)
    ∧ tid <$> [Task 2 "first" [] "suspended" None; Task 1 "A" [] "suspended" None;
               Task 2 "second" ["c"] "suspended" None] !! i = Some 2.
Proof.
  apply (mutation_first_match_only ClearLabel ["2;first;a,b"; "1;A"; "2;second;c"]
           (IdInt 2) [] 2); by vm_compute.
Defined.

(** X14.  On the task it finds, [modify] applies a status that is one of
    the four when that status is not started, or when the task has no
    dependence; the description is replaced when one is given; the id, the
    labels and the dependence stay. *)
Theorem modify_applies_status tasks task_id id i t new_details new_status :
  int_of task_id = Return id →
  find_task id (parse_tasks tasks) = Some (i, t) →
  new_status ∈ valid_statuses →
  new_status ≠ "started" ∨ dependence t = None →
  modify tasks task_id new_details (Some new_status)
  = Return (true,
            <[i := Task (tid t) (default (description t) new_details) (labels t)
                     new_status (dependence t)]> (parse_tasks tasks),
            Some t).
Proof.
  intros Hid Hfind Hvalid Hcase.
  rewrite (modify_found _ _ _ _ _ _ _ Hid Hfind).
  apply str_in_elem_of in Hvalid. rewrite Hvalid.
  destruct Hcase as [Hns%String.eqb_neq| ->]; [by rewrite Hns|].
  by destruct (new_status =? "started")%string.
Qed.

Lemma modify_applies_status_witness :
  modify ["1;A;None;suspended;None"; "2;B;x;started;1"] (IdStr "2") (Some "C")
    (Some "completed")
  = Return (true,
            <[1%nat := Task 2 "C" ["x"] "completed" (Some 1)]>
              (parse_tasks ["1;A;None;suspended;None"; "2;B;x;started;1"]),
            Some (Task 2 "B" ["x"] "started" (Some 1))).
Proof.
  apply (modify_applies_status ["1;A;None;suspended;None"; "2;B;x;started;1"]
           (IdStr "2") 2 1%nat (Task 2 "B" ["x"] "started" (Some 1)) (Some "C")
           "completed"); try done.
  - unfold valid_statuses. rewrite !elem_of_cons. tauto.
  - by left.
Defined.

(** X15.  On the task it finds, [modify] keeps the status when no status
    is given or when the one given is not one of the four; it still
    reports [found = True] and replaces the description when one is given.
    With no description either, the list returned is the parsed list. *)
Theorem modify_keeps_status tasks task_id id i t new_details new_status :
  int_of task_id = Return id →
  find_task id (parse_tasks tasks) = Some (i, t) →
  (∀ ns, new_status = Some ns → ns ∉ valid_statuses) →
  modify tasks task_id new_details new_status
  = Return (true,
            <[i := Task (tid t) (default (description t) new_details) (labels t)
                     (status t) (dependence t)]> (parse_tasks tasks),
            Some t)
  ∧ (new_details = None →
     modify tasks task_id new_details new_status
     = Return (true, parse_tasks tasks, Some t)).
Proof.
  intros Hid Hfind Hbad.
  rewrite (modify_found _ _ _ _ _ _ _ Hid Hfind).
  assert (match new_status with
          | Some new_status0 =>
              match (new_status0 =? "started")%string, dependence t with
              | true, Some d =>
                  match find_task d (parse_tasks tasks) with
                  | Some (_, p) =>
                      if (status p =? "completed")%string
                      then new_status0 else status t
                  | None => new_status0
                  end
              | _, _ =>
                  if str_in new_status0 valid_statuses then new_status0
                  else status t
              end
          | None => status t
          end = status t) as ->.
  { destruct new_status as [ns|]; [|done].
    specialize (Hbad ns eq_refl).
    destruct (str_in ns valid_statuses) eqn:Hin;
      [by apply str_in_elem_of in Hin|].
    destruct (ns =? "started")%string eqn:Hs; [|done].
    apply String.eqb_eq in Hs as ->. done. }
  split; [done|]. intros ->. simpl.
  apply find_task_Some in Hfind as (Hi & _ & _).
  rewrite list_insert_id; [done|]. by destruct t.
Qed.

Lemma modify_keeps_status_witness :
  modify ["1;A;x;started;None"] (IdInt 1) (Some "B") (Some "Started")
  = Return (true,
            <[0%nat := Task 1 "B" ["x"] "started" None]>
              (parse_tasks ["1;A;x;started;None"]),
            Some (Task 1 "A" ["x"] "started" None))
  ∧ (Some "B" = None →
     modify ["1;A;x;started;None"] (IdInt 1) (Some "B") (Some "Started")
     = Return (true, parse_tasks ["1;A;x;started;None"],
               Some (Task 1 "A" ["x"] "started" None))).
Proof.
  apply (modify_keeps_status ["1;A;x;started;None"] (IdInt 1) 1 0%nat
           (Task 1 "A" ["x"] "started" None) (Some "B") (Some "Started"));
    [done|done|].
  intros ns [= <-] H. unfold valid_statuses in H.
  repeat (apply elem_of_cons in H as [H|H]; [done|]). by apply elem_of_nil in H.
Defined.

(** ** Labels and dependence of a task that is found *)

Lemma add_options_found tasks task_id id i t given id_dep console :
  int_of task_id = Return id →
  find_task id (parse_tasks tasks) = Some (i, t) →
  add_options tasks task_id given id_dep console
  = (let* dep :=
       match id_dep, dependence t with
       | Some id_dep, Some _ =>
           let* '(modify_dep, _) := ask_yes_no console in
           Return (if str_in modify_dep ["o"; "oui"] then Some id_dep
                   else dependence t)
       | Some id_dep, None => Return (Some id_dep)
       | None, _ => Return (dependence t)
       end in
     Return (true,
             <[i := Task (tid t) (description t)
                      (match given with
                       | Some ls => merge_labels (labels t) ls
                       | None => labels t
                       end)
                      (status t) dep]> (parse_tasks tasks),
             Some t)).
Proof.
  intros Hid Hfind. unfold add_options. rewrite Hid, Hfind. by destruct t.
Qed.

(** The labels after the loop of [add_options]: those there were, then
    the given ones that were not there, each once. *)
Lemma merge_labels_app lab ls :
  ∃ k, merge_labels lab ls = (lab ++ k)%list
       ∧ NoDup k
       ∧ ∀ x, x ∈ k ↔ x ∈ ls ∧ x ∉ lab.
Proof.
  unfold merge_labels. revert lab.
  induction ls as [|l ls IH]; intros lab; simpl.
  - exists []. rewrite app_nil_r. split_and!; [done|constructor|].
    intros x. split; [by intros ?%elem_of_nil|by intros [?%elem_of_nil _]].
  - destruct (str_in l lab) eqn:Hl.
    + apply str_in_elem_of in Hl.
      destruct (IH lab) as (k & -> & Hnd & Hk). exists k.
      split_and!; [done|done|]. intros x. rewrite Hk, elem_of_cons.
      split; [tauto|]. intros [[->|?] ?]; [done|tauto].
    + assert (l ∉ lab) as Hnot
        by (intros Hin%str_in_elem_of; congruence).
      destruct (IH (lab ++ [l])%list) as (k & -> & Hnd & Hk). exists (l :: k).
      split_and!; [by rewrite <- app_assoc| |].
      * apply NoDup_cons. split; [|done]. intros [_ Hx]%Hk.
        apply Hx, elem_of_app. right. by left.
      * intros x. rewrite !elem_of_cons, Hk, not_elem_of_app, list_elem_of_singleton.
        destruct (decide (x = l)) as [->|Hne]; [tauto|]. tauto.
Qed.

Lemma merge_labels_present lab ls :
  (∀ x, x ∈ ls → x ∈ lab) → merge_labels lab ls = lab.
Proof.
  unfold merge_labels. induction ls as [|l ls IH]; intros Hall; simpl; [done|].
  assert (str_in l lab = true) as -> by (apply str_in_elem_of, Hall; by left).
  apply IH. intros x Hx. apply Hall. by right.
Qed.

(** X16.  On the task it finds, [add_options] called with labels and no
    dependence keeps the labels of the task, in their order, and puts
    after them the given labels that the task did not have, each once; the
    other fields stay.  The same labels given again to the result add
    nothing. *)
Theorem add_options_merges_labels tasks task_id id i t ls console :
  int_of task_id = Return id →
  find_task id (parse_tasks tasks) = Some (i, t) →
  ∃ k,
    add_options tasks task_id (Some ls) None console
    = Return (true,
              <[i := Task (tid t) (description t) (labels t ++ k)%list (status t)
                       (dependence t)]> (parse_tasks tasks),
              Some t)
    ∧ NoDup k
    ∧ (∀ x, x ∈ k ↔ x ∈ ls ∧ x ∉ labels t)
    ∧ merge_labels (labels t ++ k)%list ls = (labels t ++ k)%list.
Proof.
  intros Hid Hfind.
  destruct (merge_labels_app (labels t) ls) as (k & Hm & Hnd & Hk).
  exists k. rewrite (add_options_found _ _ _ _ _ _ _ _ Hid Hfind). simpl.
  rewrite Hm. split_and!; [done|done|done|].
  apply merge_labels_present. intros x Hx. rewrite elem_of_app, Hk.
  destruct (decide (x ∈ labels t)); tauto.
Qed.

Lemma add_options_merges_labels_witness :
  ∃ k,
    add_options ["1;A;x,y"] (IdInt 1) (Some ["z"; "y"; "z"; "w"]) None []
    = Return (true,
              <[0%nat := Task 1 "A" (["x"; "y"] ++ k)%list "suspended" None]>
                (parse_tasks ["1;A;x,y"]),
              Some (Task 1 "A" ["x"; "y"] "suspended" None))
    ∧ NoDup k
    ∧ (∀ x, x ∈ k ↔ x ∈ ["z"; "y"; "z"; "w"] ∧ x ∉ ["x"; "y"])
    ∧ merge_labels (["x"; "y"] ++ k)%list ["z"; "y"; "z"; "w"]
      = (["x"; "y"] ++ k)%list.
Proof.
  by apply (add_options_merges_labels ["1;A;x,y"] (IdInt 1) 1 0%nat
              (Task 1 "A" ["x"; "y"] "suspended" None)).
Defined.

(** X17.  On the task it finds, [add_options] called with a dependence
    sets it without a question when the task has none, whatever the id
    given (no task need have it); when the task has one, the answer o or
    oui replaces it and the answer n or non keeps it, in any case of the
    letters. *)
Theorem add_options_dependence tasks task_id id i t given id_dep console :
  int_of task_id = Return id →
  find_task id (parse_tasks tasks) = Some (i, t) →
  let updated dep :=
    Return (true,
            <[i := Task (tid t) (description t)
                     (match given with
                      | Some ls => merge_labels (labels t) ls
                      | None => labels t
                      end)
                     (status t) dep]> (parse_tasks tasks),
            Some t) in
  (dependence t = None →
     add_options tasks task_id given (Some id_dep) console = updated (Some id_dep))
  ∧ (∀ answer, dependence t ≠ None →
       lower answer = "o" ∨ lower answer = "oui" →
       add_options tasks task_id given (Some id_dep) (Typed answer :: console)
       = updated (Some id_dep))
  ∧ (∀ answer, dependence t ≠ None →
       lower answer = "n" ∨ lower answer = "non" →
       add_options tasks task_id given (Some id_dep) (Typed answer :: console)
       = updated (dependence t)).
Proof.
  intros Hid Hfind updated. subst updated. cbv beta.
  split_and!.
  - intros Hd. by rewrite (add_options_found _ _ _ _ _ _ _ _ Hid Hfind), Hd.
  - intros answer Hdep Hans.
    rewrite (add_options_found _ _ _ _ _ _ _ _ Hid Hfind).
    destruct (dependence t) as [d0|]; [|done].
    cbn [ask_yes_no]. by destruct Hans as [-> | ->].
  - intros answer Hdep Hans.
    rewrite (add_options_found _ _ _ _ _ _ _ _ Hid Hfind).
    destruct (dependence t) as [d0|]; [|done].
    cbn [ask_yes_no]. by destruct Hans as [-> | ->].
Qed.

Lemma add_options_dependence_witness :
  let tasks := ["1;A;x;started;None"; "2;B;None;suspended;1"] in
  add_options tasks (IdInt 1) None (Some 99) [] =
    Return (true, <[0%nat := Task 1 "A" ["x"] "started" (Some 99)]> (parse_tasks tasks),
            Some (Task 1 "A" ["x"] "started" None))
  ∧ add_options tasks (IdInt 2) None (Some 2) [Typed "OUI"] =
    Return (true, <[1%nat := Task 2 "B" [] "suspended" (Some 2)]> (parse_tasks tasks),
            Some (Task 2 "B" [] "suspended" (Some 1)))
  ∧ add_options tasks (IdInt 2) None (Some 2) [Typed "Non"] =
    Return (true, <[1%nat := Task 2 "B" [] "suspended" (Some 1)]> (parse_tasks tasks),
            Some (Task 2 "B" [] "suspended" (Some 1))).
Proof.
  intros tasks. split_and!.
  - by apply (proj1 (add_options_dependence tasks (IdInt 1) 1 0%nat
                       (Task 1 "A" ["x"] "started" None) None 99 []
                       eq_refl eq_refl)).
  - by apply (proj1 (proj2 (add_options_dependence tasks (IdInt 2) 2 1%nat
                       (Task 2 "B" [] "suspended" (Some 1)) None 2 []
                       eq_refl eq_refl)) "OUI"); [|right].
  - by apply (proj2 (proj2 (add_options_dependence tasks (IdInt 2) 2 1%nat
                       (Task 2 "B" [] "suspended" (Some 1)) None 2 []
                       eq_refl eq_refl)) "Non"); [|right].
Defined.

(** ** Removing one label *)

Lemma rmLabel_found tasks task_id id i t console :
  int_of task_id = Return id →
  find_task id (parse_tasks tasks) = Some (i, t) →
  rmLabel tasks task_id console
  = match labels t with
    | [] => Return (true, parse_tasks tasks, Some t)
    | _ =>
        let* n := ask_index (length (labels t)) console in
        match n with
        | None => Return (false, parse_tasks tasks, None)
        | Some n =>
            Return (true,
                    <[i := Task (tid t) (description t) (delete n (labels t))
                             (status t) (dependence t)]> (parse_tasks tasks),
                    Some t)
        end
    end.
Proof.
  intros Hid Hfind. unfold rmLabel. rewrite Hid, Hfind.
  by destruct t as [? ? [|l lab] ? ?].
Qed.

(** X18.  On the task it finds, [rmLabel] asks nothing and returns the
    parsed list with [found = True] when the task has no label; otherwise
    an interrupt gives [(False, parsed_tasks, None)], and an answer that
    [int] reads as an index of the labels removes the label at that index
    and no other. *)
Theorem rmLabel_outcomes tasks task_id id i t console :
  int_of task_id = Return id →
  find_task id (parse_tasks tasks) = Some (i, t) →
  (labels t = [] →
     rmLabel tasks task_id console = Return (true, parse_tasks tasks, Some t))
  ∧ (labels t ≠ [] →
     rmLabel tasks task_id (CtrlC :: console)
     = Return (false, parse_tasks tasks, None))
  ∧ (∀ answer n,
       int answer = Return n → 0 ≤ n < Z.of_nat (length (labels t)) →
       rmLabel tasks task_id (Typed answer :: console)
       = Return (true,
                 <[i := Task (tid t) (description t)
                          (delete (Z.to_nat n) (labels t)) (status t)
                          (dependence t)]> (parse_tasks tasks),
                 Some t)).
Proof.
  intros Hid Hfind. split_and!.
  - intros Hl. by rewrite (rmLabel_found _ _ _ _ _ _ Hid Hfind), Hl.
  - intros Hl. rewrite (rmLabel_found _ _ _ _ _ _ Hid Hfind).
    by destruct (labels t).
  - intros answer n Hint [Hlo Hhi].
    rewrite (rmLabel_found _ _ _ _ _ _ Hid Hfind).
    destruct (labels t) as [|l lab] eqn:Hl; [simpl in Hhi; lia|].
    cbn [ask_index]. rewrite Hint.
    destruct (Z.leb_spec 0 n); [|lia].
    destruct (Z.ltb_spec n (Z.of_nat (length (l :: lab)))); [|lia]. done.
Qed.

Lemma rmLabel_outcomes_witness :
  let tasks := ["1;A"; "2;B;tag1,tag2,tag3;started;None"] in
  rmLabel tasks (IdStr "1") [CtrlC]
  = Return (true, parse_tasks tasks, Some (Task 1 "A" [] "suspended" None))
  ∧ rmLabel tasks (IdStr "2") [CtrlC; Typed "0"]
    = Return (false, parse_tasks tasks, None)
  ∧ rmLabel tasks (IdStr "2") [Typed " 1 "]
    = Return (true,
              <[1%nat := Task 2 "B" ["tag1"; "tag3"] "started" None]> (parse_tasks tasks),
              Some (Task 2 "B" ["tag1"; "tag2"; "tag3"] "started" None)).
Proof.
  intros tasks. split_and!.
  - by apply (proj1 (rmLabel_outcomes tasks (IdStr "1") 1 0%nat
                       (Task 1 "A" [] "suspended" None) [CtrlC] eq_refl eq_refl)).
  - by apply (proj1 (proj2 (rmLabel_outcomes tasks (IdStr "2") 2 1%nat
                       (Task 2 "B" ["tag1"; "tag2"; "tag3"] "started" None)
                       [Typed "0"] eq_refl eq_refl))).
  - apply (proj2 (proj2 (rmLabel_outcomes tasks (IdStr "2") 2 1%nat
                       (Task 2 "B" ["tag1"; "tag2"; "tag3"] "started" None)
                       [] eq_refl eq_refl)) " 1 " 1); [done|]. simpl. lia.
Defined.

(** X19.  When the task it finds has labels, [rmLabel] asks again after an
    answer that [int] rejects, and after a number that is negative or not
    less than the number of labels: such an answer changes nothing. *)
Theorem rmLabel_asks_again tasks task_id id i t console answer :
  int_of task_id = Return id →
  find_task id (parse_tasks tasks) = Some (i, t) →
  labels t ≠ [] →
  (∀ n, int answer = Return n → n < 0 ∨ Z.of_nat (length (labels t)) ≤ n) →
  rmLabel tasks task_id (Typed answer :: console) = rmLabel tasks task_id console.
Proof.
  intros Hid Hfind Hl Hbad.
  rewrite !(rmLabel_found _ _ _ _ _ _ Hid Hfind).
  destruct (labels t) as [|l lab]; [done|].
  cbn [ask_index]. destruct (int answer) as [n|]; [|done].
  destruct (Hbad n eq_refl).
  - destruct (Z.leb_spec 0 n); [lia|done].
  - destruct (Z.ltb_spec n (Z.of_nat (length (l :: lab)))); [lia|].
    by rewrite andb_false_r.
Qed.

Lemma rmLabel_asks_again_witness :
  rmLabel ["2;B;tag1,tag2"] (IdInt 2) [Typed "2"; Typed "x"; Typed "-1"; Typed "0"]
  = rmLabel ["2;B;tag1,tag2"] (IdInt 2) [Typed "x"; Typed "-1"; Typed "0"].
Proof.
  apply (rmLabel_asks_again ["2;B;tag1,tag2"] (IdInt 2) 2 0%nat
           (Task 2 "B" ["tag1"; "tag2"] "suspended" None)); try done.
  intros n [= <-]. right. simpl. lia.
Defined.

(** ** What the operations raise *)

Lemma ask_index_raises len console e :
  ask_index len console = Raise e → e = EOFError.
Proof.
  induction console as [|[answer|] console IH]; cbn [ask_index].
  - by intros [= <-].
  - destruct (int answer) as [n|]; [|done].
    by destruct ((0 <=? n) && (n <? Z.of_nat len)).
  - done.
Qed.

(** X20.  [modify] and [rm] always return.  [clearLabel] and [rmDep] raise
    nothing but [UnboundLocalError]; [rmLabel] nothing but that and
    [EOFError], an interrupt being caught; [add_options] nothing but
    [KeyboardInterrupt] and [EOFError], and nothing at all when it is given
    no dependence. *)
Theorem raised_exceptions tasks task_id console :
  (∀ new_details new_status,
     ∃ r, modify tasks task_id new_details new_status = Return r)
  ∧ (∃ r, rm tasks task_id = Return r)
  ∧ (∀ e, clearLabel tasks task_id = Raise e → e = UnboundLocalError)
  ∧ (∀ e, rmDep tasks task_id = Raise e → e = UnboundLocalError)
  ∧ (∀ e, rmLabel tasks task_id console = Raise e →
          e = UnboundLocalError ∨ e = EOFError)
  ∧ (∀ given id_dep e,
       add_options tasks task_id given id_dep console = Raise e →
       id_dep ≠ None ∧ (e = KeyboardInterrupt ∨ e = EOFError)).
Proof.
  split_and!.
  - intros. unfold modify. destruct (int_of task_id); [|by eexists].
    destruct (find_task _ _) as [[i [? ? ? ? ?]]|]; by eexists.
  - unfold rm. destruct (int_of task_id); [|by eexists].
    destruct (rm_filter _ _ _ _). by eexists.
  - intros e. unfold clearLabel. destruct (int_of task_id); [|done].
    destruct (find_task _ _) as [[i [? ? ? ? ?]]|]; [done|]. by intros [= <-].
  - intros e. unfold rmDep. destruct (int_of task_id); [|done].
    destruct (find_task _ _) as [[i [? ? ? ? ?]]|]; [done|]. by intros [= <-].
  - intros e. unfold rmLabel. destruct (int_of task_id); [|done].
    destruct (find_task _ _) as [[i [? ? lab ? ?]]|]; [|intros [= <-]; by left].
    destruct lab as [|l lab]; [done|]. unfold bind.
    destruct (ask_index _ console) as [[n|]|e'] eqn:Hask; [done|done|].
    intros [= <-]. right. by eapply ask_index_raises.
  - intros given id_dep e. unfold add_options. destruct (int_of task_id); [|done].
    destruct (find_task _ _) as [[i [? ? ? ? dep]]|]; [|done].
    unfold bind. destruct id_dep as [nd|]; [|by destruct dep].
    destruct dep as [d0|]; [|done].
    destruct (ask_yes_no console) as [[answer rest]|e'] eqn:Hask; [done|].
    intros [= <-]. split; [done|].
    apply ask_yes_no_raises in Hask as [[-> _]|[-> _]]; [by right|by left].
Qed.

Lemma raised_exceptions_witness :
  (UnboundLocalError = UnboundLocalError ∨ UnboundLocalError = EOFError)
  ∧ (Some 1 ≠ None ∧ (KeyboardInterrupt = KeyboardInterrupt
                     ∨ KeyboardInterrupt = EOFError)).
Proof.
  destruct (raised_exceptions ["1;A;x"] (IdInt 2) [])
    as (_ & _ & _ & _ & Hrm & _).
  destruct (raised_exceptions ["1;A;x;started;3"] (IdInt 1) [Typed "?"; CtrlC])
    as (_ & _ & _ & _ & _ & Hopt).
  split.
  - by apply Hrm.
  - by apply (Hopt None (Some 1)).
Defined.

(** ** The table of [show] *)

Lemma length_append a b :
  String.length (a ++ b) = (String.length a + String.length b)%nat.
Proof. induction a as [|c a IH]; simpl; [done|]. by rewrite IH. Qed.

Lemma length_repeat_char c n : String.length (repeat_char c n) = n.
Proof. induction n as [|n IH]; simpl; [done|]. by rewrite IH. Qed.

(** [f"{s:<{width}}"] has the width, or the length of [s] if that is more. *)
Lemma length_ljust s width :
  String.length (ljust s width) = Nat.max (String.length s) width.
Proof. unfold ljust. rewrite length_append, length_repeat_char. lia. Qed.



Lemma length_show_dep dep : String.length (show_dep dep) = dep_width dep.
Proof. destruct dep as [d|]; [|done]. simpl. by destruct (d =? 0). Qed.


Lemma max_of_ge f (l : list task) t : t ∈ l → (f t ≤ max_of f l)%nat.
Proof.
  unfold max_of. induction l as [|u l IH]; [by intros ?%elem_of_nil|].
  intros [->|Ht]%elem_of_cons; simpl; [lia|]. specialize (IH Ht). lia.
Qed.

Lemma insert_by_id_perm t l : insert_by_id t l ≡ₚ t :: l.
Proof.
  induction l as [|u l IH]; simpl; [done|].
  destruct (tid t <=? tid u); [done|]. by rewrite IH, Permutation_swap.
Qed.

Lemma sorted_by_id_perm l : sorted_by_id l ≡ₚ l.
Proof.
  unfold sorted_by_id. induction l as [|t l IH]; simpl; [done|].
  by rewrite insert_by_id_perm, IH.
Qed.

Lemma insert_by_id_sorted t l :
  Sorted (fun a b => tid a ≤ tid b) l →
  Sorted (fun a b => tid a ≤ tid b) (insert_by_id t l).
Proof.
  induction 1 as [|u l Hl IH Hhd]; simpl; [by repeat constructor|].
  destruct (Z.leb_spec (tid t) (tid u)) as [Hle|Hlt].
  - constructor; [by constructor|]. by constructor.
  - constructor; [done|].
    destruct l as [|v l]; simpl in *.
    + constructor. lia.
    + destruct (Z.leb_spec (tid t) (tid v)); constructor; [lia|].
      by inversion Hhd.
Qed.

Lemma sorted_by_id_sorted l : Sorted (fun a b => tid a ≤ tid b) (sorted_by_id l).
Proof.
  unfold sorted_by_id. induction l as [|t l IH]; simpl; [constructor|].
  by apply insert_by_id_sorted.
Qed.

Lemma insert_by_id_filter k t l :
  filter (fun u => tid u = k) (insert_by_id t l)
  = filter (fun u => tid u = k) (t :: l).
Proof.
  induction l as [|u l IH]; simpl; [done|].
  destruct (Z.leb_spec (tid t) (tid u)) as [Hle|Hlt]; [done|].
  rewrite (filter_cons _ u), IH, !(filter_cons _ t), (filter_cons _ u).
  destruct (decide (tid u = k)), (decide (tid t = k)); try done. lia.
Qed.

Lemma sorted_by_id_filter k l :
  filter (fun u => tid u = k) (sorted_by_id l) = filter (fun u => tid u = k) l.
Proof.
  unfold sorted_by_id. induction l as [|t l IH]; simpl; [done|].
  rewrite insert_by_id_filter, !(filter_cons _ t), IH. done.
Qed.

(** X21.  [show] prints the single line [No tasks found.] exactly when no
    line parses to a task; otherwise it prints four lines more than there
    are parsed tasks. *)
Theorem show_line_count tasks :
  (show tasks = ["No tasks found."] ↔ parse_tasks tasks = [])
  ∧ (parse_tasks tasks ≠ [] →
     length (show tasks) = (length (parse_tasks tasks) + 4)%nat).
Proof.
  unfold show. destruct (parse_tasks tasks) as [|t0 rest] eqn:Hp.
  - by split.
  - split; [split; [|done]|].
    + intros H. apply (f_equal length) in H. by rewrite !length_app in H.
    + intros _. rewrite !length_app, length_map.
      rewrite (Permutation_length (sorted_by_id_perm (t0 :: rest))). simpl. lia.
Qed.

Lemma show_line_count_witness :
  length (show ["2;B"; "junk"; "1;A"]) = (length (parse_tasks ["2;B"; "junk"; "1;A"]) + 4)%nat.
Proof. by apply (proj2 (show_line_count ["2;B"; "junk"; "1;A"])). Defined.

(** X22.  When some line parses to a task, [show] prints a border, the
    titles, a border, one row for each parsed task and a border; the rows
    come by ids that do not decrease, and the tasks of one id come in the
    order of the lines. *)
Theorem show_rows_sorted tasks :
  parse_tasks tasks ≠ [] →
  ∃ a b c d rows,
    show tasks
    = ([border_line a b c d; header_line a b c d; border_line a b c d]
       ++ map (task_row a b c d) rows ++ [border_line a b c d])%list
    ∧ rows ≡ₚ parse_tasks tasks
    ∧ Sorted (fun t u => tid t ≤ tid u) rows
    ∧ ∀ k, filter (fun t => tid t = k) rows
           = filter (fun t => tid t = k) (parse_tasks tasks).
Proof.
  intros Hne. unfold show. destruct (parse_tasks tasks) as [|t0 rest]; [done|].
  do 4 eexists. exists (sorted_by_id (t0 :: rest)).
  split_and!; [reflexivity|apply sorted_by_id_perm|apply sorted_by_id_sorted|].
  intros k. apply sorted_by_id_filter.
Qed.

Lemma show_rows_sorted_witness :
  ∃ a b c d rows,
    show ["2;B"; "1;first"; "1;second"]
    = ([border_line a b c d; header_line a b c d; border_line a b c d]
       ++ map (task_row a b c d) rows ++ [border_line a b c d])%list
    ∧ rows ≡ₚ parse_tasks ["2;B"; "1;first"; "1;second"]
    ∧ Sorted (fun t u => tid t ≤ tid u) rows
    ∧ ∀ k, filter (fun t => tid t = k) rows
           = filter (fun t => tid t = k) (parse_tasks ["2;B"; "1;first"; "1;second"]).
Proof. by apply (show_rows_sorted ["2;B"; "1;first"; "1;second"]). Defined.

Lemma append_assoc (a b c : str) : (a ++ b) ++ c = a ++ b ++ c.
Proof.
  induction a as [|x a IH]; [done|].
  change (String x ((a ++ b) ++ c) = String x (a ++ b ++ c)). by rewrite IH.
Qed.

(** A cell of the table: a space, the text padded to the width, a space. *)
Lemma length_cell v w :
  (String.length v ≤ w)%nat →
  String.length (" " ++ ljust v w ++ " ") = (w + 2)%nat.
Proof.
  intros H. rewrite !length_append, length_ljust. simpl. lia.
Qed.

Lemma border_line_cells a b c d :
  border_line a b c d
  = String "+" "-----" ++ String "+" (repeat_char "-" (a + 2))
    ++ String "+" (repeat_char "-" (b + 2)) ++ String "+" (repeat_char "-" (c + 2))
    ++ String "+" (repeat_char "-" (d + 2)) ++ String "+" EmptyString.
Proof. reflexivity. Qed.

Lemma cell_assoc (v rest : str) :
  (" " ++ v ++ " ") ++ rest = " " ++ v ++ " " ++ rest.
Proof. by rewrite !append_assoc. Qed.

(** A line of five fields between bars, seen as six bars around five
    cells. *)
Lemma row_of_cells (v1 v2 v3 v4 v5 : str) :
  "| " ++ v1 ++ " | " ++ v2 ++ " | " ++ v3 ++ " | " ++ v4 ++ " | " ++ v5 ++ " |"
  = String "|" (" " ++ v1 ++ " ") ++ String "|" (" " ++ v2 ++ " ")
    ++ String "|" (" " ++ v3 ++ " ") ++ String "|" (" " ++ v4 ++ " ")
    ++ String "|" (" " ++ v5 ++ " ") ++ String "|" EmptyString.
Proof.
  symmetry.
  change (String "|" ((" " ++ v1 ++ " ") ++ String "|" ((" " ++ v2 ++ " ")
            ++ String "|" ((" " ++ v3 ++ " ") ++ String "|" ((" " ++ v4 ++ " ")
            ++ String "|" ((" " ++ v5 ++ " ") ++ String "|" EmptyString)))))
          = "| " ++ v1 ++ " | " ++ v2 ++ " | " ++ v3 ++ " | " ++ v4 ++ " | "
            ++ v5 ++ " |").
  by rewrite !cell_assoc.
Qed.

Lemma header_line_cells a b c d :
  header_line a b c d
  = String "|" (" " ++ ljust "id" 3 ++ " ")
    ++ String "|" (" " ++ ljust "description" a ++ " ")
    ++ String "|" (" " ++ ljust etiquettes b ++ " ")
    ++ String "|" (" " ++ ljust "statut" c ++ " ")
    ++ String "|" (" " ++ ljust dependance d ++ " ")
    ++ String "|" EmptyString.
Proof. apply row_of_cells. Qed.

Lemma task_row_cells a b c d t :
  task_row a b c d t
  = String "|" (" " ++ ljust (str_of_int (tid t)) 3 ++ " ")
    ++ String "|" (" " ++ ljust (description t) a ++ " ")
    ++ String "|" (" " ++ ljust (show_labels (labels t)) b ++ " ")
    ++ String "|" (" " ++ ljust (status t) c ++ " ")
    ++ String "|" (" " ++ ljust (show_dep (dependence t)) d ++ " ")
    ++ String "|" EmptyString.
Proof. destruct t as [n de la st dep]. apply row_of_cells. Qed.

(** X23.  When every parsed id is written with three characters at most
    (from -99 to 999), the columns of the table [show] prints are aligned:
    every line is a separator, five characters, a separator, and so on for
    five cells between six separators, the separator being [+] on the
    borders and [|] on the other lines, and the width of each of the five
    cells being the same on all the lines, whatever the descriptions,
    labels, statuses and dependences.  In a row, each cell is a space, the
    text of the field, spaces up to the width of the column, and a space. *)
Theorem show_aligned tasks :
  (∀ t, t ∈ parse_tasks tasks → (String.length (str_of_int (tid t)) ≤ 3)%nat) →
  parse_tasks tasks ≠ [] →
  ∃ a b c d,
    (∀ l, l ∈ show tasks →
       ∃ s f1 f2 f3 f4 f5,
         (s = "+"%char ∨ s = "|"%char)
         ∧ l = String s f1 ++ String s f2 ++ String s f3 ++ String s f4
               ++ String s f5 ++ String s EmptyString
         ∧ String.length f1 = 5%nat
         ∧ String.length f2 = (a + 2)%nat
         ∧ String.length f3 = (b + 2)%nat
         ∧ String.length f4 = (c + 2)%nat
         ∧ String.length f5 = (d + 2)%nat)
    ∧ (∀ t, t ∈ parse_tasks tasks →
         String "|" (" " ++ ljust (str_of_int (tid t)) 3 ++ " ")
         ++ String "|" (" " ++ ljust (description t) a ++ " ")
         ++ String "|" (" " ++ ljust (show_labels (labels t)) b ++ " ")
         ++ String "|" (" " ++ ljust (status t) c ++ " ")
         ++ String "|" (" " ++ ljust (show_dep (dependence t)) d ++ " ")
         ++ String "|" EmptyString
         ∈ show tasks).
Proof.
  intros Hids Hne. unfold show.
  destruct (parse_tasks tasks) as [|t0 rest] eqn:Hp; [done|].
  set (sorted_tasks := sorted_by_id (t0 :: rest)).
  set (a := Nat.max (max_of (fun t => String.length (description t)) sorted_tasks) 11).
  set (b := Nat.max (max_of (fun t => String.length (join ", " (labels t)))
                       sorted_tasks) 12).
  set (c := Nat.max (max_of (fun t => String.length (status t)) sorted_tasks) 6).
  set (d := Nat.max (max_of (fun t => dep_width (dependence t)) sorted_tasks) 10).
  exists a, b, c, d. split.
  - intros l. rewrite !elem_of_app, !elem_of_cons, !elem_of_nil.
    assert (∃ s f1 f2 f3 f4 f5,
              (s = "+"%char ∨ s = "|"%char)
              ∧ border_line a b c d
                = String s f1 ++ String s f2 ++ String s f3 ++ String s f4
                  ++ String s f5 ++ String s EmptyString
              ∧ String.length f1 = 5%nat
              ∧ String.length f2 = (a + 2)%nat
              ∧ String.length f3 = (b + 2)%nat
              ∧ String.length f4 = (c + 2)%nat
              ∧ String.length f5 = (d + 2)%nat) as Hborder.
    { do 6 eexists. split; [by left|]. split; [apply border_line_cells|].
      by rewrite !length_repeat_char. }
    intros [[->|[->|[->|[]]]]|[(t & -> & Ht)%list_elem_of_fmap|[->|[]]]];
      try exact Hborder.
    + do 6 eexists. split; [by right|]. split; [apply header_line_cells|].
      split_and!; apply length_cell; simpl; lia.
    + do 6 eexists. split; [by right|]. split; [apply task_row_cells|].
      split_and!; apply length_cell.
      * apply Hids. by rewrite <- (sorted_by_id_perm (t0 :: rest)).
      * pose proof (max_of_ge (fun t => String.length (description t)) _ _ Ht).
        simpl in *. lia.
      * pose proof (max_of_ge (fun t => String.length (join ", " (labels t))) _ _ Ht)
          as Hm. simpl in Hm.
        unfold show_labels. destruct (labels t); [simpl; lia|lia].
      * pose proof (max_of_ge (fun t => String.length (status t)) _ _ Ht).
        simpl in *. lia.
      * rewrite length_show_dep.
        pose proof (max_of_ge (fun t => dep_width (dependence t)) _ _ Ht).
        simpl in *. lia.
  - intros t Ht. rewrite <- task_row_cells.
    rewrite !elem_of_app. right. left.
    apply list_elem_of_fmap. exists t. split; [done|].
    unfold sorted_tasks. by rewrite (sorted_by_id_perm (t0 :: rest)).
Qed.

Lemma show_aligned_witness :
  ∃ a b c d,
    (∀ l, l ∈ show ["999;B;None;started;1234567"; "-7;a very long description!;x;;0"] →
       ∃ s f1 f2 f3 f4 f5,
         (s = "+"%char ∨ s = "|"%char)
         ∧ l = String s f1 ++ String s f2 ++ String s f3 ++ String s f4
               ++ String s f5 ++ String s EmptyString
         ∧ String.length f1 = 5%nat
         ∧ String.length f2 = (a + 2)%nat
         ∧ String.length f3 = (b + 2)%nat
         ∧ String.length f4 = (c + 2)%nat
         ∧ String.length f5 = (d + 2)%nat)
    ∧ (∀ t, t ∈ parse_tasks ["999;B;None;started;1234567";
                             "-7;a very long description!;x;;0"] →
         String "|" (" " ++ ljust (str_of_int (tid t)) 3 ++ " ")
         ++ String "|" (" " ++ ljust (description t) a ++ " ")
         ++ String "|" (" " ++ ljust (show_labels (labels t)) b ++ " ")
         ++ String "|" (" " ++ ljust (status t) c ++ " ")
         ++ String "|" (" " ++ ljust (show_dep (dependence t)) d ++ " ")
         ++ String "|" EmptyString
         ∈ show ["999;B;None;started;1234567"; "-7;a very long description!;x;;0"]).
Proof.
  apply (show_aligned ["999;B;None;started;1234567"; "-7;a very long description!;x;;0"]).
  - vm_compute. intros t Ht.
    repeat (apply elem_of_cons in Ht as [->|Ht]; [simpl; lia|]).
    by apply elem_of_nil in Ht.
  - by vm_compute.
Defined.
